(** * MathsWorkSheets: the problem generator and the grid layout of
      [maths_worksheet.py], embedded in Rocq.

    The generator draws its operands with [random.randint]; it is modelled in
    a state-and-exception monad whose state is the random source.  The
    renderer is a pure function building the LaTeX text. *)

From Stdlib Require Import ZArith String Ascii List Lia Bool.
From Stdlib Require Import DecimalString DecimalPos DecimalZ.
From ExtLib Require Import Structures.Monad Structures.MonadState Structures.MonadExc.
From ExtLib Require Import Data.Monads.StateMonad Data.Monads.EitherMonad.
Import ListNotations.
Import MonadNotation.
Local Open Scope monad_scope.
Local Open Scope string_scope.
Local Open Scope Z_scope.
#[local] Existing Instance Monad_stateT.

(* ===================================================================== *)
(** ** Python runtime: exceptions, the random source, [str], [join]      *)
(* ===================================================================== *)

(** The exceptions the modelled code can raise. *)
Inductive exn : Type :=
| ValueError          (* random.randint on an empty range *)
| UnboundLocalError   (* a local read before any assignment *)
| EOFError.           (* input() at the end of the input *)

(** The random source: an unbounded tape of integers and a cursor.  Every
    draw consumes one entry. *)
Record rng : Type := { tape : nat -> Z; pos : nat }.

Definition Gen : Type -> Type := stateT rng (sum exn).

(** [random.randint(a, b)]: an integer N with a <= N <= b; ValueError when
    the range is empty.  The tape entry is reduced into the range, so each
    value of the range is drawn for some tape and no other value is. *)
Definition randint (a b : Z) : Gen Z :=
  if b <? a then raise ValueError
  else
    g <- get ;;
    put {| tape := tape g; pos := S (pos g) |} ;;
    ret (a + tape g (pos g) mod (b - a + 1)).

(** [str(n)] on an int: decimal digits, a leading minus for negatives. *)
Definition str (n : Z) : string := NilZero.string_of_int (Z.to_int n).

(** [sep.join(parts)]. *)
Definition join (sep : string) (parts : list string) : string :=
  String.concat sep parts.

(** [range(n)]: empty when n <= 0. *)
Definition range (n : Z) : list Z := map Z.of_nat (seq 0 (Z.to_nat n)).

(** [for x in xs: s = body(x, s)], in the generator monad. *)
Fixpoint for_each {A S : Type} (xs : list A) (body : A -> S -> Gen S) (s : S)
  : Gen S :=
  match xs with
  | [] => ret s
  | x :: rest => s1 <- body x s ;; for_each rest body s1
  end.

(* ===================================================================== *)
(** ** Problem generator                                                 *)
(* ===================================================================== *)

(** A problem is the pair (expression, answer). *)
Definition Problem : Type := (string * Z)%type.

(** [generate_problem(operation, min_num, max_num)].  The locals [problem]
    and [answer] are bound only inside the four branches; with any other
    operation the final [return problem, answer] reads an unbound local. *)
Definition generate_problem (operation : string) (min_num max_num : Z)
  : Gen Problem :=
  if String.eqb operation "addition" then
    a <- randint min_num max_num ;;
    b <- randint min_num max_num ;;
    let answer := a + b in
    let problem := str a ++ " + " ++ str b in
    ret (problem, answer)
  else if String.eqb operation "subtraction" then
    a <- randint min_num max_num ;;
    b <- randint min_num a ;;
    let answer := a - b in
    let problem := str a ++ " - " ++ str b in
    ret (problem, answer)
  else if String.eqb operation "multiplication" then
    a <- randint min_num max_num ;;
    b <- randint min_num max_num ;;
    let answer := a * b in
    let problem := str a ++ " \times " ++ str b in
    ret (problem, answer)
  else if String.eqb operation "division" then
    b <- randint (Z.max 1 min_num) max_num ;;
    answer <- randint min_num max_num ;;
    let a := b * answer in
    let problem := str a ++ " \div " ++ str b in
    ret (problem, answer)
  else raise UnboundLocalError.

(** The body of the loop of [generate_problems]: one call, one append. *)
Definition generate_problems_body (operation : string) (min_num max_num : Z)
  : Z -> list Problem -> Gen (list Problem) :=
  fun _ problems =>
    pa <- generate_problem operation min_num max_num ;;
    ret (problems ++ [pa])%list.

(** [generate_problems(operation, min_num, max_num, num_questions)]. *)
Definition generate_problems (operation : string) (min_num max_num : Z)
    (num_questions : Z) : Gen (list Problem) :=
  for_each (range num_questions)
    (generate_problems_body operation min_num max_num) [].

(* ===================================================================== *)
(** ** Interactive input: the number-range loop of [get_user_input]      *)
(* ===================================================================== *)

Section Console.

(** Python's [int()] on a typed line: [None] stands for ValueError. *)
Variable int : string -> option Z.

Definition prompt_min : string := "  Minimum number (e.g., 0): ".
Definition prompt_max : string := "  Maximum number (e.g., 20): ".
Definition msg_invalid : string := "  Please enter valid numbers.".
Definition msg_order : string := "  Maximum must be greater than minimum.".
Definition msg_division : string :=
  "  Note: For division, minimum will be set to 1 to avoid division by zero.".

(** The [while True] loop that reads [min_num] and [max_num].  [stdin] is
    the list of lines still to be typed, [out] what has been printed so
    far (prompts included).  Each round consumes one line (when [int]
    fails on the minimum) or two; the loop ends with the accepted pair and
    the unread lines, or with EOFError when the input ends. *)
Fixpoint read_range (operation : string) (stdin : list string)
    (out : list string) : (exn + Z * Z * list string) * list string :=
  match stdin with
  | [] => (inl EOFError, out ++ [prompt_min])%list
  | l1 :: rest1 =>
    match int l1 with
    | None => read_range operation rest1 (out ++ [prompt_min; msg_invalid])%list
    | Some min_num =>
      match rest1 with
      | [] => (inl EOFError, out ++ [prompt_min; prompt_max])%list
      | l2 :: rest2 =>
        match int l2 with
        | None =>
          read_range operation rest2
            (out ++ [prompt_min; prompt_max; msg_invalid])%list
        | Some max_num =>
          if min_num <? max_num then
            if String.eqb operation "division" && (min_num <? 1) then
              (inr (1, max_num, rest2),
               (out ++ [prompt_min; prompt_max; msg_division])%list)
            else
              (inr (min_num, max_num, rest2),
               (out ++ [prompt_min; prompt_max])%list)
          else
            read_range operation rest2
              (out ++ [prompt_min; prompt_max; msg_order])%list
        end
      end
    end
  end.

End Console.

(* ===================================================================== *)
(** ** Layout renderer                                                   *)
(* ===================================================================== *)

Definition nl : string := String "010"%char EmptyString.

Definition len {A : Type} (l : list A) : Z := Z.of_nat (length l).

(** [s * n] on a string. *)
Fixpoint str_repeat (s : string) (n : nat) : string :=
  match n with
  | O => ""
  | S n' => s ++ str_repeat s n'
  end.

(** [enumerate(xs)], counting from [i]. *)
Fixpoint enumerate_from {A : Type} (i : Z) (xs : list A) : list (Z * A) :=
  match xs with
  | [] => []
  | x :: rest => (i, x) :: enumerate_from (i + 1) rest
  end.

Definition enumerate {A : Type} (xs : list A) : list (Z * A) :=
  enumerate_from 0 xs.

(** The [params] dictionary. *)
Record Params : Type := {
  operation : string;
  min_num : Z;
  max_num : Z;
  num_questions : Z;
  student_name : string
}.

(** [get_operation_symbol]: the display name, or the key itself. *)
Definition get_operation_symbol (operation : string) : string :=
  if String.eqb operation "addition" then "Addition (+)"
  else if String.eqb operation "subtraction" then "Subtraction (-)"
  else if String.eqb operation "multiplication" then "Multiplication (×)"
  else if String.eqb operation "division" then "Division (÷)"
  else operation.

(** The column count [generate_latex] computes from the number of
    problems. *)
Definition columns_for (num_problems : Z) : Z :=
  if num_problems <=? 12 then 3
  else if num_problems <=? 24 then 4
  else 5.

(** One grid entry: the numbered expression and its answer cell. *)
Definition cell (show_answers : bool) (q_num : Z) (problem : string)
    (answer : Z) : string :=
  if show_answers then
    "\textbf{" ++ str q_num ++ ".} $" ++ problem ++ "$ & $= " ++ str answer ++ "$"
  else
    "\textbf{" ++ str q_num ++ ".} $" ++ problem ++ "$ & $=$ \rule{1.5cm}{0.4pt}".

(** [while len(row) < columns: row.append(" & ")].  The fuel is the number
    of missing entries, which [pad_exit] shows to be enough. *)
Fixpoint pad_loop (fuel : nat) (row : list string) (columns : Z)
  : list string :=
  match fuel with
  | O => row
  | S fuel' =>
    if len row <? columns then pad_loop fuel' (row ++ [" & "])%list columns
    else row
  end.

Definition pad (row : list string) (columns : Z) : list string :=
  pad_loop (Z.to_nat (columns - len row)) row columns.

(** The state of the loop that fills the table: the row under construction
    and the text written so far. *)
Record fill_state : Type := { row : list string; latex : string }.

(** One iteration of [for i, (problem, answer) in enumerate(problems)]. *)
Definition fill_step (show_answers : bool) (columns : Z) (num_problems : Z)
    (st : fill_state) (ip : Z * Problem) : fill_state :=
  let '(i, (problem, answer)) := ip in
  let q_num := i + 1 in
  let row1 := (row st ++ [cell show_answers q_num problem answer])%list in
  if (len row1 =? columns) || (i =? num_problems - 1) then
    let row2 := pad row1 columns in
    let latex1 := latex st ++ (join " & " row2 ++ " \\" ++ nl) in
    let latex2 := latex1 ++ ("\hline" ++ nl) in
    {| row := []; latex := latex2 |}
  else {| row := row1; latex := latex st |}.

Definition fill_problems (show_answers : bool) (columns : Z)
    (problems : list Problem) (latex0 : string) : fill_state :=
  fold_left (fill_step show_answers columns (len problems))
    (enumerate problems) {| row := []; latex := latex0 |}.

Definition preamble : string :=
"\documentclass[12pt,a4paper]{article}
\usepackage[utf8]{inputenc}
\usepackage[margin=2cm]{geometry}
\usepackage{amsmath}
\usepackage{array}
\usepackage{multicol}
\usepackage{fancyhdr}
\usepackage{lastpage}

\pagestyle{fancy}
\fancyhf{}
\renewcommand{\headrulewidth}{0.4pt}
\renewcommand{\footrulewidth}{0.4pt}
".

(** Everything [generate_latex] writes before the table rows.  [today] is
    the text of [datetime.now().strftime("%d/%m/%Y")]. *)
Definition document_head (params : Params) (today : string)
    (show_answers : bool) (columns : Z) : string :=
  let latex := preamble in
  let title := if show_answers then "ANSWER KEY" else "MATHS WORKSHEET" in
  let latex :=
    if show_answers then latex ++ ("\fancyhead[C]{\textbf{ANSWER KEY}}" ++ nl)
    else latex ++ ("\fancyhead[C]{\textbf{MATHS WORKSHEET}}" ++ nl) in
  let latex := latex ++ ("\fancyfoot[C]{Page \thepage\ of \pageref{LastPage}}" ++ nl) in
  let latex := latex ++ ("\fancyfoot[R]{\small Generated: " ++ today ++ "}" ++ nl) in
  let latex := latex ++ ("
\begin{document}

\begin{center}
{\LARGE \textbf{" ++ title ++ "}}
\vspace{0.5cm}

{\large " ++ get_operation_symbol (operation params) ++ "}

{\normalsize Range: " ++ str (min_num params) ++ " -- " ++ str (max_num params) ++ "}
\end{center}

\vspace{0.3cm}
") in
  let latex :=
    if String.eqb (student_name params) "" then
      latex ++ ("\noindent\textbf{Name:} \rule{6cm}{0.4pt} \hfill \textbf{Date:} \rule{4cm}{0.4pt}" ++ nl ++ nl)
    else
      latex ++ ("\noindent\textbf{Name:} " ++ student_name params ++ " \hfill \textbf{Date:} \rule{4cm}{0.4pt}" ++ nl ++ nl) in
  let latex := latex ++ ("\vspace{0.5cm}" ++ nl ++ nl) in
  let latex := latex ++ ("\begin{center}" ++ nl) in
  let latex := latex ++ ("\renewcommand{\arraystretch}{2.5}" ++ nl) in
  let col_spec := "|" ++ str_repeat "r@{\hspace{0.3cm}}l|" (Z.to_nat columns) in
  let latex := latex ++ ("\begin{tabular}{" ++ col_spec ++ "}" ++ nl) in
  latex ++ ("\hline" ++ nl).

(** Everything written after the table rows. *)
Definition document_tail (show_answers : bool) (latex : string) : string :=
  let latex := latex ++ ("\end{tabular}" ++ nl) in
  let latex := latex ++ ("\end{center}" ++ nl ++ nl) in
  let latex :=
    if negb show_answers then latex ++ "
\vfill
\begin{center}
\small\textit{Show your working out in the space provided. Good luck!}
\end{center}
"
    else latex in
  latex ++ ("\end{document}" ++ nl).

(** [generate_latex(problems, params, show_answers)]. *)
Definition generate_latex (problems : list Problem) (params : Params)
    (today : string) (show_answers : bool) : string :=
  let num_problems := len problems in
  let columns := columns_for num_problems in
  let head := document_head params today show_answers columns in
  let st := fill_problems show_answers columns problems head in
  document_tail show_answers (latex st).

(* ===================================================================== *)
(** ** Views used by the specifications                                  *)
(* ===================================================================== *)

(** The four operation names [get_user_input] can return. *)
Definition operations : list string :=
  ["addition"; "subtraction"; "multiplication"; "division"].

(** [calls op lo hi g ps g']: starting from the random source [g], calling
    [generate_problem] once per element returns the problems [ps], in this
    order, and leaves the source at [g']. *)
Inductive calls (op : string) (lo hi : Z) : rng -> list Problem -> rng -> Prop :=
| calls_nil : forall g, calls op lo hi g [] g
| calls_cons : forall g p g1 ps g2,
    runStateT (generate_problem op lo hi) g = inr (p, g1) ->
    calls op lo hi g1 ps g2 ->
    calls op lo hi g (p :: ps) g2.

(** The random source after one draw. *)
Definition advance (g : rng) : rng := {| tape := tape g; pos := S (pos g) |}.

(** The value [randint a b] draws from the source [g]. *)
Definition drawn (a b : Z) (g : rng) : Z := a + tape g (pos g) mod (b - a + 1).

(** A source whose every entry is [c]. *)
Definition constant_source (c : Z) (k : nat) : rng :=
  {| tape := fun _ => c; pos := k |}.

(** A table entry before rendering: a numbered problem, or padding. *)
Definition entry : Type := option (Z * Problem).

(** The text of an entry, as [fill_step] writes it into a row. *)
Definition entry_text (show_answers : bool) (e : entry) : string :=
  match e with
  | None => " & "
  | Some (i, (problem, answer)) => cell show_answers (i + 1) problem answer
  end.

(** The left part of a cell: the question number and the expression. *)
Definition numbered_expression (q_num : Z) (problem : string) : string :=
  "\textbf{" ++ str q_num ++ ".} $" ++ problem ++ "$".

(** The right part of a cell: a rule to write on, or the answer. *)
Definition answer_cell (show_answers : bool) (answer : Z) : string :=
  if show_answers then "$= " ++ str answer ++ "$"
  else "$=$ \rule{1.5cm}{0.4pt}".

(** The loop of [fill_step] on entries instead of text: the row under
    construction and the rows closed so far. *)
Definition pack_step (columns : Z) (num_problems : Z)
    (st : list entry * list (list entry)) (ip : Z * Problem)
  : list entry * list (list entry) :=
  let row1 := (fst st ++ [Some ip])%list in
  if (len row1 =? columns) || (fst ip =? num_problems - 1) then
    let row2 := (row1 ++ repeat None (Z.to_nat (columns - len row1)))%list in
    ([], (snd st ++ [row2])%list)
  else (row1, snd st).

Definition pack (columns : Z) (problems : list Problem) : list (list entry) :=
  snd (fold_left (pack_step columns (len problems)) (enumerate problems) ([], [])).

(** The text [fill_step] writes for one closed row. *)
Definition render_row (r : list string) : string :=
  (join " & " r ++ " \\" ++ nl) ++ ("\hline" ++ nl).

Fixpoint render_rows (rows : list (list string)) : string :=
  match rows with
  | [] => ""
  | r :: rest => render_row r ++ render_rows rest
  end.

(** The rows of strings a table holds. *)
Definition table_rows (show_answers : bool) (columns : Z)
    (problems : list Problem) : list (list string) :=
  map (map (entry_text show_answers)) (pack columns problems).

(** The table loop and the loop on entries go in step: the row under
    construction and the text written are the renderings of the entries
    collected. *)
Definition in_step (show_answers : bool) (head : string) (st : fill_state)
    (pst : list entry * list (list entry)) : Prop :=
  row st = map (entry_text show_answers) (fst pst)
  /\ latex st =
     head ++ render_rows (map (map (entry_text show_answers)) (snd pst)).

(** The characters of a string all satisfy [P]. *)
Fixpoint all_chars (P : ascii -> bool) (s : string) : bool :=
  match s with
  | EmptyString => true
  | String c rest => P c && all_chars P rest
  end.

Definition not_space (c : ascii) : bool := negb (Ascii.eqb c " "%char).

(** A typed line is read as the decimal integer it spells; used to run the
    input loop on examples. *)
Definition int_decimal (s : string) : option Z :=
  option_map Z.of_int (NilZero.int_of_string s).


(* ===================================================================== *)
(** ** The rest of the dialogue of [get_user_input]                      *)
(* ===================================================================== *)


(** What a problem of each operation looks like: two operands in their
    ranges, the expression that writes them and the answer they give. *)
Definition drawn_as (op : string) (lo hi : Z) (p : Problem) : Prop :=
  exists a b,
    (op = "addition" /\ p = (str a ++ " + " ++ str b, a + b)
     /\ lo <= a <= hi /\ lo <= b <= hi)
    \/ (op = "subtraction" /\ p = (str a ++ " - " ++ str b, a - b)
        /\ lo <= a <= hi /\ lo <= b <= a)
    \/ (op = "multiplication" /\ p = (str a ++ " \times " ++ str b, a * b)
        /\ lo <= a <= hi /\ lo <= b <= hi)
    \/ (op = "division" /\ p = (str (b * a) ++ " \div " ++ str b, a)
        /\ lo <= a <= hi /\ Z.max 1 lo <= b <= hi).

(** The lower end of the first range [generate_problem] draws from. *)
Definition first_range_low (op : string) (lo : Z) : Z :=
  if String.eqb op "division" then Z.max 1 lo else lo.

(** Exceptions of the dialogue: those of the loops, and the KeyError of a
    dictionary lookup. *)
Inductive console_exn : Type :=
| Raised (e : exn)
| KeyError.

(** [d[k]] on a dictionary given by its items: [None] stands for
    KeyError. *)
Fixpoint dict_get {V : Type} (d : list (Z * V)) (k : Z) : option V :=
  match d with
  | [] => None
  | (k', v) :: rest => if k' =? k then Some v else dict_get rest k
  end.

(** The dictionary [operations] of [get_user_input]. *)
Definition operations_dict : list (Z * string) :=
  [(1, "addition"); (2, "subtraction"); (3, "multiplication"); (4, "division")].

Definition banner : list string :=
  [nl ++ str_repeat "=" 50;
   "    MATHS WORKSHEET GENERATOR";
   "    For Primary School (Year 2 & 3)";
   str_repeat "=" 50 ++ nl;
   "Select operation type:";
   "  1. Addition (+)";
   "  2. Subtraction (-)";
   "  3. Multiplication (×)";
   "  4. Division (÷)"].

Definition prompt_choice : string := nl ++ "Enter choice (1-4): ".
Definition msg_choice_range : string := "Please enter a number between 1 and 4.".
Definition msg_choice_invalid : string := "Please enter a valid number.".
Definition msg_range_title : string := nl ++ "Enter the range of numbers to use:".
Definition msg_count_title : string := nl ++ "How many questions would you like?".
Definition prompt_count : string := "  Number of questions (e.g., 20): ".
Definition msg_count_positive : string := "  Please enter a positive number.".
Definition msg_count_invalid : string := "  Please enter a valid number.".
Definition prompt_name : string :=
  nl ++ "Student name (optional, press Enter to skip): ".

Section Dialogue.

(** Python's [int()] on a typed line ([None]: ValueError) and
    [str.strip()]. *)
Variable int : string -> option Z.
Variable strip : string -> string.

(** The [while True] loop that reads the operation choice. *)
Fixpoint read_choice (stdin : list string) (out : list string)
  : (exn + Z * list string) * list string :=
  match stdin with
  | [] => (inl EOFError, out ++ [prompt_choice])%list
  | l :: rest =>
    match int l with
    | None => read_choice rest (out ++ [prompt_choice; msg_choice_invalid])%list
    | Some op_choice =>
      if (1 <=? op_choice) && (op_choice <=? 4) then
        (inr (op_choice, rest), (out ++ [prompt_choice])%list)
      else read_choice rest (out ++ [prompt_choice; msg_choice_range])%list
    end
  end.

(** The [while True] loop that reads the number of questions. *)
Fixpoint read_count (stdin : list string) (out : list string)
  : (exn + Z * list string) * list string :=
  match stdin with
  | [] => (inl EOFError, out ++ [prompt_count])%list
  | l :: rest =>
    match int l with
    | None => read_count rest (out ++ [prompt_count; msg_count_invalid])%list
    | Some n =>
      if 0 <? n then (inr (n, rest), (out ++ [prompt_count])%list)
      else read_count rest (out ++ [prompt_count; msg_count_positive])%list
    end
  end.

(** [get_user_input()]: the typed lines go in, the parameters, the unread
    lines and everything printed come out. *)
Definition get_user_input (stdin : list string)
  : (console_exn + Params * list string) * list string :=
  match read_choice stdin banner with
  | (inl e, out) => (inl (Raised e), out)
  | (inr (op_choice, stdin1), out1) =>
    match dict_get operations_dict op_choice with
    | None => (inl KeyError, out1)
    | Some op =>
      match read_range int op stdin1 (out1 ++ [msg_range_title])%list with
      | (inl e, out) => (inl (Raised e), out)
      | (inr (lo, hi, stdin2), out2) =>
        match read_count stdin2 (out2 ++ [msg_count_title])%list with
        | (inl e, out) => (inl (Raised e), out)
        | (inr (n, stdin3), out3) =>
          match stdin3 with
          | [] => (inl (Raised EOFError), (out3 ++ [prompt_name])%list)
          | l :: stdin4 =>
            (inr ({| operation := op; min_num := lo; max_num := hi;
                     num_questions := n; student_name := strip l |}, stdin4),
             (out3 ++ [prompt_name])%list)
          end
        end
      end
    end
  end.

End Dialogue.

(** The part of [main] that asks for the parameters and generates the
    problems from them. *)
Definition ask_and_generate (int : string -> option Z)
    (strip : string -> string) (stdin : list string) (g : rng)
  : console_exn + Params * list Problem :=
  match fst (get_user_input int strip stdin) with
  | inl e => inl e
  | inr (params, _) =>
    match runStateT (generate_problems (operation params) (min_num params)
                       (max_num params) (num_questions params)) g with
    | inl e => inl (Raised e)
    | inr (problems, _) => inr (params, problems)
    end
  end.

(** The number of occurrences of a character in a text. *)
Fixpoint count_char (c : ascii) (s : string) : nat :=
  match s with
  | EmptyString => 0
  | String c' rest =>
    ((if Ascii.eqb c' c then 1 else 0) + count_char c rest)%nat
  end.

(** The column separator of a LaTeX table. *)
Definition separator : ascii := "&"%char.

(* ===================================================================== *)
(** ** Files, the LaTeX compiler and [main]                              *)
(* ===================================================================== *)

(** [s.replace(old, new)] for a non-empty [old]: every occurrence, found
    from the left and without overlap, is replaced.  [skip] counts the
    characters of an occurrence still to be dropped. *)
Fixpoint replace_skip (old new : string) (skip : nat) (s : string) : string :=
  match s with
  | EmptyString => EmptyString
  | String c rest =>
    match skip with
    | S k => replace_skip old new k rest
    | O =>
      if String.prefix old s then
        new ++ replace_skip old new (String.length old - 1) rest
      else String c (replace_skip old new O rest)
    end
  end.

Definition replace (old new s : string) : string := replace_skip old new 0 s.

(** The files of the working directory: the content of each path that
    exists. *)
Definition fs : Type := string -> option string.

(** [os.path.exists]. *)
Definition path_exists (w : fs) (p : string) : bool :=
  match w p with Some _ => true | None => false end.

(** [open(p, 'w')] followed by [write(content)]. *)
Definition write_file (w : fs) (p content : string) : fs :=
  fun q => if String.eqb q p then Some content else w q.

(** [os.remove]. *)
Definition remove_file (w : fs) (p : string) : fs :=
  fun q => if String.eqb q p then None else w q.

(** One run of [pdflatex -interaction=nonstopmode] on a file that returns:
    what it does to the files, and its decoded standard output and error.
    The runs on which [subprocess.run] raises something else than
    FileNotFoundError, which [compile_latex] does not catch, are not
    described. *)
Definition process : Type := string -> fs -> fs * (string * string).

Definition not_dot (c : ascii) : bool := negb (Ascii.eqb c "."%char).

Definition msg_pdflatex_missing : list string :=
  [nl ++ "Error: pdflatex not found. Please install a LaTeX distribution.";
   "  On Ubuntu/Debian: sudo apt-get install texlive-latex-base texlive-latex-extra";
   "  On Fedora: sudo dnf install texlive-scheme-basic texlive-lastpage";
   "  On macOS: brew install --cask mactex"].

Definition msg_saved (tex_filename : string) : string :=
  nl ++ "LaTeX source saved to: " ++ tex_filename.

Definition msg_not_created (tex_filename : string) : string :=
  "Error: PDF was not created. Check " ++ tex_filename ++ " for errors.".

(** The clean-up loop of [compile_latex] over the auxiliary extensions. *)
Definition remove_auxiliary (base : string) (w : fs) : fs :=
  fold_left
    (fun w ext =>
       let aux_file := base ++ ext in
       if path_exists w aux_file then remove_file w aux_file else w)
    [".aux"; ".log"; ".out"] w.

(** [compile_latex(latex_content, output_filename)].  [pdflatex] is the
    installed compiler, or [None] when [subprocess.run] raises
    FileNotFoundError; the loop [for _ in range(2)] is written out as its
    two runs.  The result is the returned boolean, the files and the
    output.  This describes the calls that return: [open], the decoding of
    the compiler's output and [os.remove] are taken to succeed, and the
    exceptions they can raise, which the function does not catch, are left
    out. *)
Definition compile_latex (pdflatex : option process)
    (latex_content output_filename : string) (w : fs) (out : list string)
  : bool * fs * list string :=
  let tex_filename := replace ".pdf" ".tex" output_filename in
  let w0 := write_file w tex_filename latex_content in
  match pdflatex with
  | None =>
    (false, w0, (out ++ msg_pdflatex_missing ++ [msg_saved tex_filename])%list)
  | Some run =>
    let '(w1, _) := run tex_filename w0 in
    let '(w2, (stdout, stderr)) := run tex_filename w1 in
    if path_exists w2 output_filename then
      let base := replace ".pdf" "" output_filename in
      (true, remove_auxiliary base w2, out)
    else
      (false, w2, (out ++ [msg_not_created tex_filename; stdout; stderr])%list)
  end.




(** Two compilers to run the examples with: one writes the PDF, a log and
    an auxiliary file beside the source, the other only a log. *)
Definition example_pdflatex : process :=
  fun tex_filename w =>
    let base := replace ".tex" "" tex_filename in
    (write_file (write_file (write_file w (base ++ ".pdf") "%PDF")
                   (base ++ ".log") "log") (base ++ ".aux") "aux",
     ("Output written", "")).

Definition failing_pdflatex : process :=
  fun tex_filename w =>
    let base := replace ".tex" "" tex_filename in
    (write_file w (base ++ ".log") "log", ("", "! Emergency stop")).

Definition no_files : fs := fun _ => None.

(** The title of a document. *)
Definition title_of (show_answers : bool) : string :=
  if show_answers then "ANSWER KEY" else "MATHS WORKSHEET".

(** The instruction at the foot of the worksheet. *)
Definition instruction_footer : string := "
\vfill
\begin{center}
\small\textit{Show your working out in the space provided. Good luck!}
\end{center}
".

(** The parts of a document that do not depend on [show_answers]: the
    text before the first title, between the two titles, from the second
    title to the table rows (the name and date line is in it), and after
    the rows. *)
Definition head_before_title : string :=
  preamble ++ "\fancyhead[C]{\textbf{".

Definition head_between_titles (today : string) : string :=
  "}}" ++ nl
  ++ ("\fancyfoot[C]{Page \thepage\ of \pageref{LastPage}}" ++ nl)
  ++ ("\fancyfoot[R]{\small Generated: " ++ today ++ "}" ++ nl)
  ++ "
\begin{document}

\begin{center}
{\LARGE \textbf{".

Definition name_line (student_name : string) : string :=
  if String.eqb student_name "" then
    "\noindent\textbf{Name:} \rule{6cm}{0.4pt} \hfill \textbf{Date:} \rule{4cm}{0.4pt}"
  else
    "\noindent\textbf{Name:} " ++ student_name
      ++ " \hfill \textbf{Date:} \rule{4cm}{0.4pt}".

Definition head_after_title (params : Params) (columns : Z) : string :=
  "}}
\vspace{0.5cm}

{\large " ++ get_operation_symbol (operation params) ++ "}

{\normalsize Range: " ++ str (min_num params) ++ " -- "
    ++ str (max_num params) ++ "}
\end{center}

\vspace{0.3cm}
" ++ name_line (student_name params) ++ nl ++ nl
  ++ "\vspace{0.5cm}" ++ nl ++ nl
  ++ "\begin{center}" ++ nl
  ++ "\renewcommand{\arraystretch}{2.5}" ++ nl
  ++ "\begin{tabular}{"
  ++ ("|" ++ str_repeat "r@{\hspace{0.3cm}}l|" (Z.to_nat columns))
  ++ "}" ++ nl
  ++ "\hline" ++ nl.

Definition table_end : string :=
  "\end{tabular}" ++ nl ++ "\end{center}" ++ nl ++ nl.

Definition document_end : string := "\end{document}" ++ nl.

(* ===================================================================== *)
(** ** Running the generator monad                                       *)
(* ===================================================================== *)

Lemma run_bind {A B : Type} (c : Gen A) (f : A -> Gen B) (g : rng) :
  runStateT (bind c f) g =
  match runStateT c g with
  | inl e => inl e
  | inr (x, g') => runStateT (f x) g'
  end.
Proof. cbn. destruct (runStateT c g) as [e | [x g']]; reflexivity. Qed.

Lemma run_ret {A : Type} (x : A) (g : rng) :
  runStateT (ret x : Gen A) g = inr (x, g).
Proof. reflexivity. Qed.

Lemma randint_ok (a b : Z) (g : rng) :
  a <= b -> runStateT (randint a b) g = inr (drawn a b g, advance g).
Proof.
  intros Hab. unfold randint.
  destruct (Z.ltb_spec b a); [lia | reflexivity].
Qed.

Lemma randint_empty (a b : Z) (g : rng) :
  b < a -> runStateT (randint a b) g = inl ValueError.
Proof.
  intros Hab. unfold randint.
  destruct (Z.ltb_spec b a); [reflexivity | lia].
Qed.

Lemma drawn_range (a b : Z) (g : rng) : a <= b -> a <= drawn a b g <= b.
Proof.
  intros Hab. unfold drawn.
  pose proof (Z.mod_pos_bound (tape g (pos g)) (b - a + 1)). lia.
Qed.


Lemma randint_inv (a b v : Z) (g g' : rng) :
  runStateT (randint a b) g = inr (v, g') ->
  a <= b /\ v = drawn a b g /\ g' = advance g.
Proof.
  intros H. destruct (Z.lt_ge_cases b a) as [Hlt | Hge].
  - rewrite randint_empty in H by assumption. discriminate.
  - rewrite randint_ok in H by assumption. inversion H. auto.
Qed.

(** Two successive draws, the second range depending on the first value. *)
Lemma run_two_draws {A : Type} (a b : Z) (c d : Z -> Z) (k : Z -> Z -> A)
    (g : rng) :
  a <= b -> c (drawn a b g) <= d (drawn a b g) ->
  runStateT (x <- randint a b ;; y <- randint (c x) (d x) ;; ret (k x y)) g =
  inr (k (drawn a b g) (drawn (c (drawn a b g)) (d (drawn a b g)) (advance g)),
       advance (advance g)).
Proof.
  intros H1 H2.
  rewrite run_bind, randint_ok by assumption.
  rewrite run_bind, randint_ok by assumption.
  apply run_ret.
Qed.

(* ===================================================================== *)
(** ** Decimal rendering                                                 *)
(* ===================================================================== *)

Lemma append_assoc (s1 s2 s3 : string) : (s1 ++ s2) ++ s3 = s1 ++ (s2 ++ s3).
Proof. induction s1 as [| c s1 IH]; simpl; [reflexivity | now rewrite IH]. Qed.

Lemma append_nil_r (s : string) : s ++ "" = s.
Proof. induction s as [| c s IH]; simpl; [reflexivity | now rewrite IH]. Qed.

Lemma append_inv_head (s t1 t2 : string) : s ++ t1 = s ++ t2 -> t1 = t2.
Proof.
  induction s as [| c s IH]; simpl; intros H; [assumption |].
  injection H as H. auto.
Qed.

Lemma string_of_uint_inj (d d' : Decimal.uint) :
  NilEmpty.string_of_uint d = NilEmpty.string_of_uint d' -> d = d'.
Proof.
  revert d'. induction d; intros d'; destruct d'; simpl; intros H;
    try discriminate H; try reflexivity;
    injection H as H; f_equal; auto.
Qed.

Lemma string_of_uint_digits (d : Decimal.uint) :
  all_chars not_space (NilEmpty.string_of_uint d) = true.
Proof. induction d; simpl; auto. Qed.

Lemma string_of_uint_no_minus (d : Decimal.uint) (s : string) :
  NilEmpty.string_of_uint d <> String "-"%char s.
Proof. destruct d; simpl; discriminate. Qed.

Lemma nilzero_uint (p : positive) :
  NilZero.string_of_uint (Pos.to_uint p) = NilEmpty.string_of_uint (Pos.to_uint p).
Proof.
  unfold NilZero.string_of_uint.
  destruct (Pos.to_uint p) eqn:E; try reflexivity.
  exfalso. now apply (Unsigned.to_uint_nonnil p).
Qed.

Lemma str_pos (p : positive) :
  str (Z.pos p) = NilEmpty.string_of_uint (Pos.to_uint p).
Proof. unfold str. simpl. apply nilzero_uint. Qed.

Lemma str_neg (p : positive) :
  str (Z.neg p) = String "-"%char (NilEmpty.string_of_uint (Pos.to_uint p)).
Proof. unfold str. simpl. now rewrite nilzero_uint. Qed.

Lemma str_zero : str 0 = "0".
Proof. reflexivity. Qed.

(** [str] writes no space. *)
Lemma str_no_space (n : Z) : all_chars not_space (str n) = true.
Proof.
  destruct n as [| p | p].
  - reflexivity.
  - rewrite str_pos. apply string_of_uint_digits.
  - rewrite str_neg. simpl. apply string_of_uint_digits.
Qed.

(** Different integers have different decimal texts. *)
Lemma str_inj (n m : Z) : str n = str m -> n = m.
Proof.
  destruct n as [| p | p], m as [| q | q];
    rewrite ?str_zero, ?str_pos, ?str_neg; intros H; try reflexivity.
  - exfalso. apply (Unsigned.to_uint_nonzero q).
    apply string_of_uint_inj. now rewrite <- H.
  - discriminate H.
  - exfalso. apply (Unsigned.to_uint_nonzero p).
    apply string_of_uint_inj. now rewrite H.
  - apply string_of_uint_inj, Unsigned.to_uint_inj in H. now subst.
  - exfalso. eapply string_of_uint_no_minus. exact H.
  - discriminate H.
  - exfalso. eapply string_of_uint_no_minus. symmetry. exact H.
  - injection H as H.
    apply string_of_uint_inj, Unsigned.to_uint_inj in H. now subst.
Qed.

(** A text without spaces is the part of [s ++ " " ++ t] before the first
    space. *)
Lemma split_at_space (s1 s2 t1 t2 : string) :
  all_chars not_space s1 = true -> all_chars not_space s2 = true ->
  s1 ++ String " "%char t1 = s2 ++ String " "%char t2 ->
  s1 = s2 /\ t1 = t2.
Proof.
  revert s2. induction s1 as [| c s1 IH]; intros [| c2 s2]; simpl;
    intros H1 H2 H.
  - injection H as H. auto.
  - injection H as Hc _. subst c2. discriminate H2.
  - injection H as Hc _. subst c. discriminate H1.
  - injection H as Hc H. subst c2.
    apply andb_prop in H1 as [_ H1]. apply andb_prop in H2 as [_ H2].
    destruct (IH s2 H1 H2 H) as [-> ->]. auto.
Qed.

(** An expression [a op b] determines its two operands, whatever the
    operator text between the two spaces. *)
Lemma expression_operands (op : string) (a b a' b' : Z) :
  str a ++ String " "%char (op ++ str b) =
  str a' ++ String " "%char (op ++ str b') ->
  a = a' /\ b = b'.
Proof.
  intros H.
  apply split_at_space in H as [Ha Hb]; try apply str_no_space.
  apply append_inv_head in Hb.
  split; apply str_inj; assumption.
Qed.

(* ===================================================================== *)
(** ** The single-problem generator                                      *)
(* ===================================================================== *)

Lemma run_addition (lo hi : Z) (g : rng) :
  lo <= hi ->
  runStateT (generate_problem "addition" lo hi) g =
  inr ((str (drawn lo hi g) ++ " + " ++ str (drawn lo hi (advance g)),
        drawn lo hi g + drawn lo hi (advance g)),
       advance (advance g)).
Proof.
  intros H.
  apply (run_two_draws lo hi (fun _ => lo) (fun _ => hi)
           (fun a b => (str a ++ " + " ++ str b, a + b))); assumption.
Qed.

Lemma run_subtraction (lo hi : Z) (g : rng) :
  lo <= hi ->
  runStateT (generate_problem "subtraction" lo hi) g =
  inr ((str (drawn lo hi g) ++ " - " ++ str (drawn lo (drawn lo hi g) (advance g)),
        drawn lo hi g - drawn lo (drawn lo hi g) (advance g)),
       advance (advance g)).
Proof.
  intros H.
  apply (run_two_draws lo hi (fun _ => lo) (fun a => a)
           (fun a b => (str a ++ " - " ++ str b, a - b))).
  - assumption.
  - apply drawn_range; assumption.
Qed.

Lemma run_multiplication (lo hi : Z) (g : rng) :
  lo <= hi ->
  runStateT (generate_problem "multiplication" lo hi) g =
  inr ((str (drawn lo hi g) ++ " \times " ++ str (drawn lo hi (advance g)),
        drawn lo hi g * drawn lo hi (advance g)),
       advance (advance g)).
Proof.
  intros H.
  apply (run_two_draws lo hi (fun _ => lo) (fun _ => hi)
           (fun a b => (str a ++ " \times " ++ str b, a * b))); assumption.
Qed.

Lemma run_division (lo hi : Z) (g : rng) :
  Z.max 1 lo <= hi -> lo <= hi ->
  runStateT (generate_problem "division" lo hi) g =
  inr ((str (drawn (Z.max 1 lo) hi g * drawn lo hi (advance g)) ++ " \div "
          ++ str (drawn (Z.max 1 lo) hi g),
        drawn lo hi (advance g)),
       advance (advance g)).
Proof.
  intros H1 H2.
  apply (run_two_draws (Z.max 1 lo) hi (fun _ => lo) (fun _ => hi)
           (fun b answer => (str (b * answer) ++ " \div " ++ str b, answer)));
    assumption.
Qed.

(** Division raises when no divisor of at least 1 fits under [max_num]. *)
Lemma run_division_empty (lo hi : Z) (g : rng) :
  hi < 1 -> runStateT (generate_problem "division" lo hi) g = inl ValueError.
Proof.
  intros H.
  change (generate_problem "division" lo hi) with
    (b <- randint (Z.max 1 lo) hi ;;
     answer <- randint lo hi ;;
     ret (str (b * answer) ++ " \div " ++ str b, answer) : Gen Problem).
  rewrite run_bind, randint_empty by lia. reflexivity.
Qed.

(** C1: with min_num < max_num and min_num >= 1, a division problem is
    always returned; its divisor b is the first draw, from
    [max(1, min_num), max_num], its answer the second draw, from
    [min_num, max_num], and the dividend written in the expression is their
    product, not a draw: b is not zero and divides the dividend exactly,
    with the answer as quotient.  Any reading of the expression as
    "a' \div b'" gives these same operands. *)
Theorem division_exact (lo hi : Z) (g : rng) :
  lo < hi -> 1 <= lo ->
  exists a b answer,
    runStateT (generate_problem "division" lo hi) g =
      inr ((str a ++ " \div " ++ str b, answer), advance (advance g))
    /\ b = drawn (Z.max 1 lo) hi g
    /\ answer = drawn lo hi (advance g)
    /\ a = b * answer
    /\ b <> 0 /\ a mod b = 0 /\ a / b = answer
    /\ Z.max 1 lo <= b <= hi
    /\ lo <= answer <= hi
    /\ (forall a' b',
           str a ++ " \div " ++ str b = str a' ++ " \div " ++ str b' ->
           a' = b' * answer /\ b' <> 0).
Proof.
  intros Hlt Hlo.
  pose proof (drawn_range (Z.max 1 lo) hi g ltac:(lia)) as Hb.
  pose proof (drawn_range lo hi (advance g) ltac:(lia)) as Hq.
  exists (drawn (Z.max 1 lo) hi g * drawn lo hi (advance g)),
         (drawn (Z.max 1 lo) hi g), (drawn lo hi (advance g)).
  split; [apply run_division; lia |].
  do 3 (split; [reflexivity |]).
  split; [lia |].
  split; [rewrite Z.mul_comm; apply Z.mod_mul; lia |].
  split; [rewrite Z.mul_comm; apply Z.div_mul; lia |].
  do 2 (split; [lia |]).
  intros a' b' H.
  apply (expression_operands "\div ") in H as [<- <-].
  split; [reflexivity | lia].
Qed.

Lemma division_exact_witness :
  (1 < 10 /\ 1 <= 1) /\
  exists a b answer,
    runStateT (generate_problem "division" 1 10) (constant_source 3 0) =
      inr ((str a ++ " \div " ++ str b, answer),
           advance (advance (constant_source 3 0)))
    /\ b = drawn (Z.max 1 1) 10 (constant_source 3 0)
    /\ answer = drawn 1 10 (advance (constant_source 3 0))
    /\ a = b * answer
    /\ b <> 0 /\ a mod b = 0 /\ a / b = answer
    /\ Z.max 1 1 <= b <= 10
    /\ 1 <= answer <= 10
    /\ (forall a' b',
           str a ++ " \div " ++ str b = str a' ++ " \div " ++ str b' ->
           a' = b' * answer /\ b' <> 0).
Proof.
  split; [lia |].
  apply (division_exact 1 10 (constant_source 3 0)); lia.
Defined.

(** C2: with min_num <= max_num a subtraction problem is always returned;
    a is drawn from [min_num, max_num] and b from [min_num, a], so b <= a
    and the answer a - b is not negative.  The operands read back from the
    expression are these a and b. *)
Theorem subtraction_non_negative (lo hi : Z) (g : rng) :
  lo <= hi ->
  exists a b,
    runStateT (generate_problem "subtraction" lo hi) g =
      inr ((str a ++ " - " ++ str b, a - b), advance (advance g))
    /\ a = drawn lo hi g
    /\ b = drawn lo a (advance g)
    /\ lo <= a <= hi
    /\ lo <= b <= a
    /\ 0 <= a - b
    /\ (forall a' b',
           str a ++ " - " ++ str b = str a' ++ " - " ++ str b' ->
           b' <= a' /\ a - b = a' - b').
Proof.
  intros Hle.
  pose proof (drawn_range lo hi g Hle) as Ha.
  pose proof (drawn_range lo (drawn lo hi g) (advance g) ltac:(lia)) as Hb.
  exists (drawn lo hi g), (drawn lo (drawn lo hi g) (advance g)).
  split; [apply run_subtraction; assumption |].
  do 2 (split; [reflexivity |]).
  do 3 (split; [lia |]).
  intros a' b' H.
  apply (expression_operands "- ") in H as [<- <-]. lia.
Qed.

Lemma subtraction_non_negative_witness :
  0 <= 20 /\
  exists a b,
    runStateT (generate_problem "subtraction" 0 20) (constant_source 7 0) =
      inr ((str a ++ " - " ++ str b, a - b),
           advance (advance (constant_source 7 0)))
    /\ a = drawn 0 20 (constant_source 7 0)
    /\ b = drawn 0 a (advance (constant_source 7 0))
    /\ 0 <= a <= 20
    /\ 0 <= b <= a
    /\ 0 <= a - b
    /\ (forall a' b',
           str a ++ " - " ++ str b = str a' ++ " - " ++ str b' ->
           b' <= a' /\ a - b = a' - b').
Proof.
  split; [lia |].
  apply (subtraction_non_negative 0 20 (constant_source 7 0)); lia.
Defined.

(** C8: with min_num <= max_num an addition (a multiplication) problem is
    always returned; both operands are draws from [min_num, max_num], the
    answer is their sum (their product), and the operands read back from
    the expression are the ones the answer was computed from. *)
Theorem addition_multiplication_answers (lo hi : Z) (g : rng) :
  lo <= hi ->
  (exists a b,
      runStateT (generate_problem "addition" lo hi) g =
        inr ((str a ++ " + " ++ str b, a + b), advance (advance g))
      /\ lo <= a <= hi /\ lo <= b <= hi
      /\ (forall a' b',
             str a ++ " + " ++ str b = str a' ++ " + " ++ str b' ->
             a' = a /\ b' = b /\ a + b = a' + b'))
  /\
  (exists a b,
      runStateT (generate_problem "multiplication" lo hi) g =
        inr ((str a ++ " \times " ++ str b, a * b), advance (advance g))
      /\ lo <= a <= hi /\ lo <= b <= hi
      /\ (forall a' b',
             str a ++ " \times " ++ str b = str a' ++ " \times " ++ str b' ->
             a' = a /\ b' = b /\ a * b = a' * b')).
Proof.
  intros Hle.
  pose proof (drawn_range lo hi g Hle) as Ha.
  pose proof (drawn_range lo hi (advance g) Hle) as Hb.
  split; exists (drawn lo hi g), (drawn lo hi (advance g)).
  - split; [apply run_addition; assumption |].
    do 2 (split; [assumption |]).
    intros a' b' H.
    apply (expression_operands "+ ") in H as [<- <-]. auto.
  - split; [apply run_multiplication; assumption |].
    do 2 (split; [assumption |]).
    intros a' b' H.
    apply (expression_operands "\times ") in H as [<- <-]. auto.
Qed.

Lemma addition_multiplication_answers_witness :
  0 <= 20 /\
  (exists a b,
      runStateT (generate_problem "addition" 0 20) (constant_source 5 0) =
        inr ((str a ++ " + " ++ str b, a + b),
             advance (advance (constant_source 5 0)))
      /\ 0 <= a <= 20 /\ 0 <= b <= 20
      /\ (forall a' b',
             str a ++ " + " ++ str b = str a' ++ " + " ++ str b' ->
             a' = a /\ b' = b /\ a + b = a' + b'))
  /\
  (exists a b,
      runStateT (generate_problem "multiplication" 0 20) (constant_source 5 0) =
        inr ((str a ++ " \times " ++ str b, a * b),
             advance (advance (constant_source 5 0)))
      /\ 0 <= a <= 20 /\ 0 <= b <= 20
      /\ (forall a' b',
             str a ++ " \times " ++ str b = str a' ++ " \times " ++ str b' ->
             a' = a /\ b' = b /\ a * b = a' * b')).
Proof.
  split; [lia |].
  apply (addition_multiplication_answers 0 20 (constant_source 5 0)); lia.
Defined.



(** C10: an operation outside the four names makes [generate_problem] raise
    UnboundLocalError, for every range and every random source; so a call
    that returns a pair was made with one of the four names. *)
Theorem generate_problem_unknown_operation (op : string) (lo hi : Z) (g : rng) :
  (~ In op operations ->
   runStateT (generate_problem op lo hi) g = inl UnboundLocalError)
  /\
  (forall r, runStateT (generate_problem op lo hi) g = inr r ->
             In op operations).
Proof.
  unfold generate_problem, operations.
  destruct (String.eqb_spec op "addition") as [-> | Hadd];
    [split; [intros H; exfalso; apply H |]; simpl; auto |].
  destruct (String.eqb_spec op "subtraction") as [-> | Hsub];
    [split; [intros H; exfalso; apply H |]; simpl; auto |].
  destruct (String.eqb_spec op "multiplication") as [-> | Hmul];
    [split; [intros H; exfalso; apply H |]; simpl; auto |].
  destruct (String.eqb_spec op "division") as [-> | Hdiv];
    [split; [intros H; exfalso; apply H |]; simpl; auto 6 |].
  split.
  - intros _. reflexivity.
  - intros r H. discriminate H.
Qed.

Lemma generate_problem_unknown_operation_witness :
  ~ In "modulo" operations /\
  runStateT (generate_problem "modulo" 0 20) (constant_source 5 0) =
    inl UnboundLocalError.
Proof.
  assert (Hnot : ~ In "modulo" operations).
  { simpl. intros [H | [H | [H | [H | []]]]]; discriminate H. }
  split; [exact Hnot |].
  exact (proj1 (generate_problem_unknown_operation "modulo" 0 20
                  (constant_source 5 0)) Hnot).
Defined.

(* ===================================================================== *)
(** ** The problem list                                                  *)
(* ===================================================================== *)

Lemma range_length (n : Z) : length (range n) = Z.to_nat n.
Proof. unfold range. now rewrite length_map, length_seq. Qed.

Section ProblemList.

Variables (op : string) (lo hi : Z).

Lemma run_body (x : Z) (acc : list Problem) (g : rng) :
  runStateT (generate_problems_body op lo hi x acc) g =
  match runStateT (generate_problem op lo hi) g with
  | inl e => inl e
  | inr (p, g1) => inr ((acc ++ [p])%list, g1)
  end.
Proof.
  unfold generate_problems_body. rewrite run_bind.
  destruct (runStateT (generate_problem op lo hi) g) as [e | [p g1]];
    reflexivity.
Qed.

Lemma run_for_each_cons (x : Z) (xs : list Z) (acc : list Problem) (g : rng) :
  runStateT (for_each (x :: xs) (generate_problems_body op lo hi) acc) g =
  match runStateT (generate_problem op lo hi) g with
  | inl e => inl e
  | inr (p, g1) =>
    runStateT (for_each xs (generate_problems_body op lo hi) (acc ++ [p])%list) g1
  end.
Proof.
  change (for_each (x :: xs) (generate_problems_body op lo hi) acc)
    with (s1 <- generate_problems_body op lo hi x acc ;;
          for_each xs (generate_problems_body op lo hi) s1).
  rewrite run_bind, run_body.
  destruct (runStateT (generate_problem op lo hi) g) as [e | [p g1]];
    reflexivity.
Qed.

(** The loop appends, to what it starts with, the results of one call per
    iteration. *)
Lemma for_each_calls (xs : list Z) :
  forall acc g ps g',
    calls op lo hi g ps g' -> length ps = length xs ->
    runStateT (for_each xs (generate_problems_body op lo hi) acc) g
    = inr ((acc ++ ps)%list, g').
Proof.
  induction xs as [| x xs IH]; intros acc g ps g' Hcalls Hlen.
  - destruct ps; [| discriminate Hlen].
    inversion Hcalls; subst. rewrite app_nil_r. reflexivity.
  - destruct ps as [| p ps]; [discriminate Hlen |].
    inversion Hcalls as [| ? ? g1 ? ? Hrun Hrest]; subst.
    rewrite run_for_each_cons, Hrun.
    rewrite (IH (acc ++ [p])%list g1 ps g') by (simpl in Hlen; auto; lia).
    now rewrite <- app_assoc.
Qed.

Lemma for_each_inv (xs : list Z) :
  forall acc g r g',
    runStateT (for_each xs (generate_problems_body op lo hi) acc) g = inr (r, g') ->
    exists ps, r = (acc ++ ps)%list /\ length ps = length xs
               /\ calls op lo hi g ps g'.
Proof.
  induction xs as [| x xs IH]; intros acc g r g' Hrun.
  - cbn in Hrun. inversion Hrun; subst.
    exists []. rewrite app_nil_r. repeat split. constructor.
  - rewrite run_for_each_cons in Hrun.
    destruct (runStateT (generate_problem op lo hi) g) as [e | [p g1]] eqn:Hp;
      [discriminate Hrun |].
    apply IH in Hrun as (ps & -> & Hlen & Hcalls).
    exists (p :: ps). rewrite <- app_assoc. simpl.
    repeat split; [now rewrite Hlen |].
    econstructor; eassumption.
Qed.



End ProblemList.

Lemma generate_problems_calls (op : string) (lo hi n : Z) (g g' : rng)
    (ps : list Problem) :
  calls op lo hi g ps g' -> length ps = Z.to_nat n ->
  runStateT (generate_problems op lo hi n) g = inr (ps, g').
Proof.
  intros Hcalls Hlen. unfold generate_problems.
  rewrite (for_each_calls op lo hi (range n) [] g ps g' Hcalls);
    [reflexivity | now rewrite range_length].
Qed.




(** A division over a range that lies below 1 has no divisor to draw: the
    first call raises ValueError and no list is returned. *)
Lemma generate_problems_division_raises :
  In "division" operations /\ -5 < 0 /\ 0 < 1 /\
  runStateT (generate_problems "division" (-5) 0 1) (constant_source 0 0)
    = inl ValueError /\
  ~ (exists ps g',
        runStateT (generate_problems "division" (-5) 0 1) (constant_source 0 0)
          = inr (ps, g') /\ len ps = 1).
Proof.
  assert (Hrun : runStateT (generate_problems "division" (-5) 0 1)
                   (constant_source 0 0) = inl ValueError) by reflexivity.
  split; [simpl; auto 6 |]. split; [lia |]. split; [lia |].
  split; [exact Hrun |].
  intros (ps & g' & H & _). rewrite Hrun in H. discriminate H.
Qed.



(* ===================================================================== *)
(** ** The grid                                                          *)
(* ===================================================================== *)

Lemma len_nil {A : Type} : len (@nil A) = 0.
Proof. reflexivity. Qed.

Lemma len_app {A : Type} (l1 l2 : list A) : len (l1 ++ l2) = len l1 + len l2.
Proof. unfold len. rewrite length_app. lia. Qed.

Lemma len_cons {A : Type} (x : A) (l : list A) : len (x :: l) = len l + 1.
Proof. unfold len. simpl length. lia. Qed.

Lemma len_repeat {A : Type} (x : A) (k : nat) : len (repeat x k) = Z.of_nat k.
Proof. unfold len. now rewrite repeat_length. Qed.

Lemma len_map {A B : Type} (f : A -> B) (l : list A) : len (map f l) = len l.
Proof. unfold len. now rewrite length_map. Qed.

Lemma len_nonneg {A : Type} (l : list A) : 0 <= len l.
Proof. unfold len. lia. Qed.

Lemma columns_for_cases (n : Z) :
  columns_for n = 3 \/ columns_for n = 4 \/ columns_for n = 5.
Proof.
  unfold columns_for.
  destruct (n <=? 12); [auto |]. destruct (n <=? 24); auto.
Qed.

(** The padding loop appends the missing entries and stops because its
    condition is false, not because the fuel is spent. *)
Lemma pad_loop_spec (columns : Z) (fuel : nat) :
  forall row,
    (Z.to_nat (columns - len row) <= fuel)%nat ->
    pad_loop fuel row columns =
    (row ++ repeat " & " (Z.to_nat (columns - len row)))%list.
Proof.
  induction fuel as [| fuel IH]; intros row Hfuel; simpl.
  - replace (Z.to_nat (columns - len row)) with 0%nat by lia.
    now rewrite app_nil_r.
  - destruct (Z.ltb_spec (len row) columns) as [Hlt | Hge].
    + rewrite IH by (rewrite len_app, len_cons, len_nil; lia).
      rewrite len_app, len_cons, len_nil, <- app_assoc. simpl.
      replace (Z.to_nat (columns - len row))
        with (S (Z.to_nat (columns - (len row + (0 + 1))))) by lia.
      reflexivity.
    + replace (Z.to_nat (columns - len row)) with 0%nat by lia.
      now rewrite app_nil_r.
Qed.

Lemma pad_spec (row : list string) (columns : Z) :
  pad row columns = (row ++ repeat " & " (Z.to_nat (columns - len row)))%list.
Proof. unfold pad. apply pad_loop_spec. lia. Qed.

Lemma pad_exit (row : list string) (columns : Z) :
  (len (pad row columns) <? columns) = false.
Proof.
  rewrite pad_spec, len_app, len_repeat.
  apply Z.ltb_ge. pose proof (len_nonneg row). lia.
Qed.

Lemma render_rows_app (rows : list (list string)) (r : list string) :
  render_rows (rows ++ [r]) = render_rows rows ++ render_row r.
Proof.
  induction rows as [| r0 rows IH]; simpl.
  - now rewrite append_nil_r.
  - now rewrite IH, append_assoc.
Qed.

Section Grid.

Variables (show_answers : bool) (columns : Z) (num_problems : Z).

Lemma fill_step_in_step (head : string) (st : fill_state)
    (pst : list entry * list (list entry)) (ip : Z * Problem) :
  in_step show_answers head st pst ->
  in_step show_answers head (fill_step show_answers columns num_problems st ip)
    (pack_step columns num_problems pst ip).
Proof.
  intros [Hrow Hlatex]. destruct ip as [i [problem answer]].
  unfold fill_step, pack_step. cbv zeta. cbn [fst snd].
  assert (Hrow1 :
    (row st ++ [cell show_answers (i + 1) problem answer])%list =
    map (entry_text show_answers)
      (fst pst ++ [@Some (Z * Problem) (i, (problem, answer))])).
  { rewrite map_app, Hrow. reflexivity. }
  rewrite Hrow1, len_map.
  match goal with
  | |- in_step _ _ (if ?b1 then _ else _) (if ?b2 then _ else _) =>
    change b1 with b2; destruct b2
  end; split; cbn [row latex fst snd].
  - reflexivity.
  - rewrite pad_spec, len_map, Hlatex.
    rewrite (map_app (map (entry_text show_answers))). cbn [map].
    rewrite render_rows_app.
    rewrite (map_app (entry_text show_answers) (_ ++ _) (repeat _ _)).
    rewrite map_repeat.
    unfold render_row. cbn [entry_text].
    rewrite !append_assoc. reflexivity.
  - reflexivity.
  - assumption.
Qed.

Lemma fold_in_step (head : string) (l : list (Z * Problem)) :
  forall st pst,
    in_step show_answers head st pst ->
    in_step show_answers head
      (fold_left (fill_step show_answers columns num_problems) l st)
      (fold_left (pack_step columns num_problems) l pst).
Proof.
  induction l as [| ip l IH]; intros st pst H; simpl.
  - assumption.
  - apply IH, fill_step_in_step, H.
Qed.

(** From a row with room left and at least one problem still to place,
    the loop on entries ends with no open row, and the rows it has closed
    all have [columns] entries and hold, in order, the entries of the
    open row, the remaining problems, and padding shorter than a row. *)
Lemma pack_fold (Hcolumns : 1 <= columns) (xs : list Problem) :
  forall i row rows,
    i + len xs = num_problems -> len row < columns -> xs <> [] ->
    exists new k,
      fold_left (pack_step columns num_problems) (enumerate_from i xs)
        (row, rows) = ([], (rows ++ new)%list)
      /\ Forall (fun r => len r = columns) new
      /\ (Z.of_nat k < columns)
      /\ concat new =
         (row ++ map Some (enumerate_from i xs) ++ repeat None k)%list.
Proof.
  induction xs as [| x rest IH]; intros i row rows Hn Hrow Hne;
    [contradiction |].
  pose proof (len_nonneg row) as Hrow0.
  pose proof (len_nonneg rest) as Hrest0.
  rewrite len_cons in Hn.
  cbn [enumerate_from fold_left]. unfold pack_step at 2. cbv zeta.
  cbn [fst snd].
  set (row1 := (row ++ [Some (i, x)])%list).
  assert (Hrow1 : len row1 = len row + 1)
    by (unfold row1; rewrite len_app, len_cons, len_nil; lia).
  destruct rest as [| y rest'].
  - (* the last problem closes the row *)
    replace (i =? num_problems - 1) with true
      by (symmetry; apply Z.eqb_eq; rewrite len_nil in Hn; lia).
    rewrite orb_true_r. cbn [enumerate_from fold_left map].
    exists [(row1 ++ repeat None (Z.to_nat (columns - len row1)))%list],
           (Z.to_nat (columns - len row1)).
    split; [reflexivity |]. split; [| split].
    + constructor; [| constructor]. rewrite len_app, len_repeat. lia.
    + lia.
    + cbn [concat]. rewrite app_nil_r. unfold row1.
      rewrite <- app_assoc. reflexivity.
  - replace (i =? num_problems - 1) with false
      by (symmetry; apply Z.eqb_neq; rewrite len_cons in Hn;
          pose proof (len_nonneg rest'); lia).
    rewrite orb_false_r.
    destruct (Z.eqb_spec (len row1) columns) as [Hfull | Hroom].
    + (* a full row is closed and a new one opened *)
      replace (Z.to_nat (columns - len row1)) with 0%nat by lia.
      cbn [repeat]. rewrite app_nil_r.
      destruct (IH (i + 1) [] (rows ++ [row1])%list) as (new & k & Hf & Hall & Hk & Hcat).
      * lia.
      * rewrite len_nil. lia.
      * discriminate.
      * exists (row1 :: new), k. rewrite Hf, <- app_assoc.
        split; [reflexivity |]. split; [| split].
        -- constructor; assumption.
        -- assumption.
        -- cbn [concat]. rewrite Hcat. unfold row1.
           rewrite <- app_assoc. reflexivity.
    + (* the row stays open *)
      destruct (IH (i + 1) row1 rows) as (new & k & Hf & Hall & Hk & Hcat).
      * lia.
      * lia.
      * discriminate.
      * exists new, k. rewrite Hf.
        split; [reflexivity |]. split; [assumption |].
        split; [assumption |].
        rewrite Hcat. unfold row1. rewrite <- app_assoc. reflexivity.
Qed.

End Grid.

Lemma fill_problems_latex (show_answers : bool) (columns : Z)
    (problems : list Problem) (head : string) :
  latex (fill_problems show_answers columns problems head) =
  head ++ render_rows (table_rows show_answers columns problems).
Proof.
  unfold fill_problems, table_rows, pack.
  apply (fold_in_step show_answers columns (len problems) head).
  split; cbn; [reflexivity | now rewrite append_nil_r].
Qed.

Lemma pack_structure (columns : Z) (problems : list Problem) :
  1 <= columns ->
  exists k,
    Forall (fun r => len r = columns) (pack columns problems)
    /\ Z.of_nat k < columns
    /\ concat (pack columns problems) =
       (map Some (enumerate problems) ++ repeat None k)%list.
Proof.
  intros Hc. unfold pack, enumerate.
  destruct problems as [| p rest] eqn:E.
  - exists 0%nat. cbn. split; [constructor | split; [lia | reflexivity]].
  - rewrite <- E.
    destruct (pack_fold columns (len problems) Hc problems 0 [] [])
      as (new & k & Hf & Hall & Hk & Hcat).
    + lia.
    + rewrite len_nil. lia.
    + rewrite E. discriminate.
    + exists k. rewrite Hf. cbn [snd app].
      split; [assumption |]. split; [assumption |]. exact Hcat.
Qed.

Lemma len_concat_uniform {A : Type} (c : Z) (rows : list (list A)) :
  Forall (fun r => len r = c) rows -> len (concat rows) = len rows * c.
Proof.
  induction 1 as [| r rows Hr _ IH]; [reflexivity |].
  cbn [concat]. rewrite len_app, len_cons, Hr, IH. lia.
Qed.

Lemma len_enumerate_from {A : Type} (xs : list A) :
  forall i, len (enumerate_from i xs) = len xs.
Proof.
  induction xs as [| x xs IH]; intros i; [reflexivity |].
  cbn [enumerate_from]. now rewrite !len_cons, IH.
Qed.

Lemma cell_parts (show_answers : bool) (q_num : Z) (problem : string)
    (answer : Z) :
  cell show_answers q_num problem answer =
  numbered_expression q_num problem ++ " & " ++ answer_cell show_answers answer.
Proof.
  unfold cell, numbered_expression, answer_cell.
  destruct show_answers; repeat (rewrite append_assoc; cbn [append]);
    reflexivity.
Qed.

Lemma generate_latex_parts (problems : list Problem) (params : Params)
    (today : string) (show_answers : bool) :
  generate_latex problems params today show_answers =
  document_tail show_answers
    (document_head params today show_answers (columns_for (len problems))
     ++ render_rows
          (table_rows show_answers (columns_for (len problems)) problems)).
Proof. unfold generate_latex. cbv zeta. now rewrite fill_problems_latex. Qed.

(* ===================================================================== *)
(** ** The rendered documents                                            *)
(* ===================================================================== *)

(** C4: the column count [generate_latex] uses, for the column
    specification and for the grid alike, is 3 up to 12 problems, 4 from 13
    to 24 and 5 above 24. *)
Theorem columns_thresholds (problems : list Problem) :
  let n := len problems in
  let columns := columns_for n in
  ((n <= 12 /\ columns = 3) \/ (13 <= n <= 24 /\ columns = 4)
   \/ (24 < n /\ columns = 5))
  /\ columns_for 12 = 3 /\ columns_for 13 = 4
  /\ columns_for 24 = 4 /\ columns_for 25 = 5
  /\ (forall params today show_answers,
         generate_latex problems params today show_answers =
         document_tail show_answers
           (latex (fill_problems show_answers columns problems
                     (document_head params today show_answers columns)))).
Proof.
  cbv zeta. split; [| repeat split].
  unfold columns_for.
  destruct (Z.leb_spec (len problems) 12); [left; lia |].
  destruct (Z.leb_spec (len problems) 24); [right; left; lia | right; right; lia].
Qed.

(** C5: the table [generate_latex] writes is the rendering of rows that all
    have exactly [columns] entries; read row after row they are the cells
    of the problems, in problem order, followed by fewer than [columns]
    padding entries, so that only the last row is padded. *)
Theorem grid_rectangular (problems : list Problem) (params : Params)
    (today : string) (show_answers : bool) :
  let columns := columns_for (len problems) in
  let rows := table_rows show_answers columns problems in
  generate_latex problems params today show_answers =
    document_tail show_answers
      (document_head params today show_answers columns ++ render_rows rows)
  /\ Forall (fun r => len r = columns) rows
  /\ exists k,
       0 <= k < columns
       /\ len rows * columns = len problems + k
       /\ concat rows =
          (map (fun ip => cell show_answers (fst ip + 1) (fst (snd ip)) (snd (snd ip)))
               (enumerate problems)
           ++ repeat " & " (Z.to_nat k))%list.
Proof.
  cbv zeta. split; [apply generate_latex_parts |].
  assert (Hc : 1 <= columns_for (len problems))
    by (destruct (columns_for_cases (len problems)) as [-> | [-> | ->]]; lia).
  destruct (pack_structure (columns_for (len problems)) problems Hc)
    as (k & Hall & Hk & Hcat).
  assert (Hrows : Forall (fun r => len r = columns_for (len problems))
                    (table_rows show_answers (columns_for (len problems)) problems)).
  { unfold table_rows. apply Forall_map.
    eapply Forall_impl; [| exact Hall].
    intros r Hr. cbn beta. now rewrite len_map. }
  split; [exact Hrows |].
  assert (Hconcat :
    concat (table_rows show_answers (columns_for (len problems)) problems) =
    (map (fun ip => cell show_answers (fst ip + 1) (fst (snd ip)) (snd (snd ip)))
         (enumerate problems) ++ repeat " & " k)%list).
  { unfold table_rows. rewrite <- concat_map, Hcat, map_app, map_map, map_repeat.
    f_equal. apply map_ext. intros [i [problem answer]]. reflexivity. }
  exists (Z.of_nat k). rewrite Nat2Z.id.
  split; [lia |]. split; [| exact Hconcat].
  rewrite <- (len_concat_uniform _ _ Hrows), Hconcat.
  rewrite len_app, len_map, len_repeat.
  unfold enumerate. now rewrite len_enumerate_from.
Qed.

(** C6: the worksheet and the answer key are renderings of one and the same
    grid of entries, which holds the problems numbered in order and then
    padding; an entry renders in both documents as the same numbered
    expression followed by an answer cell, a rule in the worksheet and the
    answer in the key, and padding renders the same in both. *)
Theorem worksheet_and_key_same_grid (problems : list Problem)
    (params : Params) (today : string) :
  let columns := columns_for (len problems) in
  exists grid : list (list entry),
    generate_latex problems params today false =
      document_tail false
        (document_head params today false columns
         ++ render_rows (map (map (entry_text false)) grid))
    /\ generate_latex problems params today true =
      document_tail true
        (document_head params today true columns
         ++ render_rows (map (map (entry_text true)) grid))
    /\ (exists k, concat grid =
                  (map Some (enumerate problems) ++ repeat None k)%list)
    /\ (forall i problem answer,
           entry_text false (Some (i, (problem, answer))) =
             numbered_expression (i + 1) problem ++ " & "
               ++ "$=$ \rule{1.5cm}{0.4pt}"
           /\ entry_text true (Some (i, (problem, answer))) =
             numbered_expression (i + 1) problem ++ " & "
               ++ "$= " ++ str answer ++ "$"
           /\ entry_text false (Some (i, (problem, answer))) <>
              entry_text true (Some (i, (problem, answer))))
    /\ entry_text false None = entry_text true None.
Proof.
  cbv zeta. exists (pack (columns_for (len problems)) problems).
  split; [apply generate_latex_parts |].
  split; [apply generate_latex_parts |].
  split.
  - assert (Hc : 1 <= columns_for (len problems))
      by (destruct (columns_for_cases (len problems)) as [-> | [-> | ->]]; lia).
    destruct (pack_structure (columns_for (len problems)) problems Hc)
      as (k & _ & _ & Hcat).
    exists k. exact Hcat.
  - split; [| reflexivity].
    intros i problem answer. cbn [entry_text]. rewrite !cell_parts.
    split; [reflexivity |]. split; [reflexivity |].
    intros H. apply append_inv_head in H. discriminate H.
Qed.

(* ===================================================================== *)
(** ** The number range read from the user                               *)
(* ===================================================================== *)

Section Range.

Variable int : string -> option Z.


(** A division minimum below 1 is accepted in the round it is typed, as
    1; the program prints one line of notice and asks nothing more. *)
Lemma read_range_division_note (l1 l2 : string) (lo0 hi : Z)
    (rest out : list string) :
  int l1 = Some lo0 -> int l2 = Some hi -> lo0 < hi -> lo0 < 1 ->
  read_range int "division" (l1 :: l2 :: rest) out =
  (inr (1, hi, rest), (out ++ [prompt_min; prompt_max; msg_division])%list).
Proof.
  intros H1 H2 Hlt Hlow. cbn [read_range]. rewrite H1, H2.
  destruct (Z.ltb_spec lo0 hi); [| lia].
  destruct (Z.ltb_spec lo0 1); [| lia]. reflexivity.
Qed.

End Range.

(** The range accepted for a division can be empty: the minimum is raised
    to 1 after the comparison with the maximum, and generation then
    raises. *)
Lemma division_range_can_be_empty :
  read_range int_decimal "division" ["-5"; "0"] [] =
    (inr (1, 0, []), [prompt_min; prompt_max; msg_division])
  /\ runStateT (generate_problems "division" 1 0 3) (constant_source 0 0)
     = inl ValueError.
Proof. split; reflexivity. Qed.



(* ===================================================================== *)
(** ** Further properties of the generator                               *)
(* ===================================================================== *)

Lemma run_first_draw_empty {A : Type} (a b : Z) (k : Z -> Gen A) (g : rng) :
  b < a -> runStateT (x <- randint a b ;; k x) g = inl ValueError.
Proof. intros H. rewrite run_bind, randint_empty by assumption. reflexivity. Qed.

Lemma first_range_low_division (lo : Z) :
  first_range_low "division" lo = Z.max 1 lo.
Proof. reflexivity. Qed.

Lemma in_operations (op : string) :
  In op operations ->
  op = "addition" \/ op = "subtraction" \/ op = "multiplication"
  \/ op = "division".
Proof. simpl. intros [H | [H | [H | [H | []]]]]; auto. Qed.

Lemma drawn_as_addition (lo hi : Z) (g : rng) :
  lo <= hi ->
  drawn_as "addition" lo hi
    (str (drawn lo hi g) ++ " + " ++ str (drawn lo hi (advance g)),
     drawn lo hi g + drawn lo hi (advance g)).
Proof.
  intros H. exists (drawn lo hi g), (drawn lo hi (advance g)). left.
  pose proof (drawn_range lo hi g H).
  pose proof (drawn_range lo hi (advance g) H). auto.
Qed.

Lemma drawn_as_subtraction (lo hi : Z) (g : rng) :
  lo <= hi ->
  drawn_as "subtraction" lo hi
    (str (drawn lo hi g) ++ " - " ++ str (drawn lo (drawn lo hi g) (advance g)),
     drawn lo hi g - drawn lo (drawn lo hi g) (advance g)).
Proof.
  intros H. exists (drawn lo hi g), (drawn lo (drawn lo hi g) (advance g)).
  right; left.
  pose proof (drawn_range lo hi g H) as Ha.
  pose proof (drawn_range lo (drawn lo hi g) (advance g) ltac:(lia)). auto.
Qed.

Lemma drawn_as_multiplication (lo hi : Z) (g : rng) :
  lo <= hi ->
  drawn_as "multiplication" lo hi
    (str (drawn lo hi g) ++ " \times " ++ str (drawn lo hi (advance g)),
     drawn lo hi g * drawn lo hi (advance g)).
Proof.
  intros H. exists (drawn lo hi g), (drawn lo hi (advance g)).
  right; right; left.
  pose proof (drawn_range lo hi g H).
  pose proof (drawn_range lo hi (advance g) H). auto.
Qed.

Lemma drawn_as_division (lo hi : Z) (g : rng) :
  Z.max 1 lo <= hi ->
  drawn_as "division" lo hi
    (str (drawn (Z.max 1 lo) hi g * drawn lo hi (advance g)) ++ " \div "
       ++ str (drawn (Z.max 1 lo) hi g),
     drawn lo hi (advance g)).
Proof.
  intros H. exists (drawn lo hi (advance g)), (drawn (Z.max 1 lo) hi g).
  right; right; right.
  pose proof (drawn_range (Z.max 1 lo) hi g H).
  pose proof (drawn_range lo hi (advance g) ltac:(lia)). auto.
Qed.

(** X1: for each of the four operations an empty first range makes
    [generate_problem] raise ValueError: max_num below min_num, or, for a
    division, max_num below max(1, min_num). *)
Theorem generate_problem_range_error (op : string) (lo hi : Z) (g : rng) :
  In op operations -> hi < first_range_low op lo ->
  runStateT (generate_problem op lo hi) g = inl ValueError.
Proof.
  intros Hop Hempty.
  apply in_operations in Hop as [-> | [-> | [-> | ->]]];
    cbv [first_range_low] in Hempty;
    cbn [String.eqb Ascii.eqb Bool.eqb] in Hempty;
    apply run_first_draw_empty; assumption.
Qed.

Lemma generate_problem_range_error_witness :
  (In "division" operations /\ 0 < first_range_low "division" (-5)) /\
  runStateT (generate_problem "division" (-5) 0) (constant_source 2 0)
  = inl ValueError.
Proof.
  assert (Hop : In "division" operations) by (simpl; auto 6).
  assert (Hlow : 0 < first_range_low "division" (-5)) by reflexivity.
  split; [split; assumption |].
  exact (generate_problem_range_error "division" (-5) 0 (constant_source 2 0)
           Hop Hlow).
Defined.



(** A call that returns was made with one of the four operations on a
    non-empty first range. *)
Lemma generate_problem_inv (op : string) (lo hi : Z) (g g' : rng) (p : Problem) :
  runStateT (generate_problem op lo hi) g = inr (p, g') ->
  In op operations /\ first_range_low op lo <= hi
  /\ g' = advance (advance g) /\ drawn_as op lo hi p.
Proof.
  intros Hrun.
  assert (Hop : In op operations).
  { unfold generate_problem in Hrun. unfold operations.
    destruct (String.eqb_spec op "addition"); [simpl; auto |].
    destruct (String.eqb_spec op "subtraction"); [simpl; auto |].
    destruct (String.eqb_spec op "multiplication"); [simpl; auto |].
    destruct (String.eqb_spec op "division"); [simpl; auto 6 |].
    discriminate Hrun. }
  split; [exact Hop |].
  destruct (Z.lt_ge_cases hi (first_range_low op lo)) as [Hempty | Hrange].
  - exfalso.
    assert (E : runStateT (generate_problem op lo hi) g = inl ValueError).
    { apply in_operations in Hop as [-> | [-> | [-> | ->]]];
        cbv [first_range_low] in Hempty;
        cbn [String.eqb Ascii.eqb Bool.eqb] in Hempty;
        apply run_first_draw_empty; assumption. }
    rewrite E in Hrun. discriminate Hrun.
  - split; [exact Hrange |].
    apply in_operations in Hop as [-> | [-> | [-> | ->]]];
      cbv [first_range_low] in Hrange;
      cbn [String.eqb Ascii.eqb Bool.eqb] in Hrange.
    + rewrite run_addition in Hrun by assumption. inversion Hrun; subst.
      split; [reflexivity | apply drawn_as_addition; assumption].
    + rewrite run_subtraction in Hrun by assumption. inversion Hrun; subst.
      split; [reflexivity | apply drawn_as_subtraction; assumption].
    + rewrite run_multiplication in Hrun by assumption. inversion Hrun; subst.
      split; [reflexivity | apply drawn_as_multiplication; assumption].
    + rewrite run_division in Hrun by lia. inversion Hrun; subst.
      split; [reflexivity | apply drawn_as_division; assumption].
Qed.




(** X4: the answer of a returned problem lies in [2 min_num, 2 max_num]
    for an addition, in [0, max_num - min_num] for a subtraction, in
    [min_num^2, max_num^2] for a multiplication over a range that starts at
    0 or above, and in [min_num, max_num] for a division. *)
Theorem answer_bounds (op : string) (lo hi : Z) (g g' : rng)
    (expression : string) (answer : Z) :
  runStateT (generate_problem op lo hi) g = inr ((expression, answer), g') ->
  (op = "addition" -> 2 * lo <= answer <= 2 * hi)
  /\ (op = "subtraction" -> 0 <= answer <= hi - lo)
  /\ (op = "multiplication" -> 0 <= lo -> lo * lo <= answer <= hi * hi)
  /\ (op = "division" -> lo <= answer <= hi).
Proof.
  intros Hrun. apply generate_problem_inv in Hrun as (_ & _ & _ & Hp).
  destruct Hp as (a & b & [H | [H | [H | H]]]);
    destruct H as (-> & Heq & Ha & Hb); inversion Heq; subst;
    repeat split; intros; try discriminate; try lia; nia.
Qed.

Lemma answer_bounds_witness :
  runStateT (generate_problem "subtraction" 3 9) (constant_source 10 0)
  = inr (("6 - 5", 1), constant_source 10 2)
  /\ ("subtraction" = "addition" -> 2 * 3 <= 1 <= 2 * 9)
  /\ ("subtraction" = "subtraction" -> 0 <= 1 <= 9 - 3)
  /\ ("subtraction" = "multiplication" -> 0 <= 3 -> 3 * 3 <= 1 <= 9 * 9)
  /\ ("subtraction" = "division" -> 3 <= 1 <= 9).
Proof.
  assert (Hrun : runStateT (generate_problem "subtraction" 3 9)
                   (constant_source 10 0)
                 = inr (("6 - 5", 1), constant_source 10 2)) by reflexivity.
  split; [exact Hrun |].
  exact (answer_bounds "subtraction" 3 9 (constant_source 10 0)
           (constant_source 10 2) "6 - 5" 1 Hrun).
Defined.

(* ===================================================================== *)
(** ** Further properties of the problem list                            *)
(* ===================================================================== *)

Lemma range_positive (n : Z) :
  0 < n -> exists rest, range n = 0 :: rest.
Proof.
  intros H. unfold range.
  destruct (Z.to_nat n) as [| k] eqn:E; [lia |].
  simpl. eauto.
Qed.

Lemma generate_problems_inv (op : string) (lo hi n : Z) (g g' : rng)
    (ps : list Problem) :
  runStateT (generate_problems op lo hi n) g = inr (ps, g') ->
  calls op lo hi g ps g' /\ length ps = Z.to_nat n.
Proof.
  intros Hrun. unfold generate_problems in Hrun.
  apply for_each_inv in Hrun as (qs & -> & Hlen & Hcalls).
  rewrite range_length in Hlen. auto.
Qed.

Lemma calls_app (op : string) (lo hi : Z) (g g1 g2 : rng)
    (ps1 ps2 : list Problem) :
  calls op lo hi g ps1 g1 -> calls op lo hi g1 ps2 g2 ->
  calls op lo hi g (ps1 ++ ps2) g2.
Proof.
  induction 1 as [| g p gm ps g1 Hrun _ IH]; intros H2; [assumption |].
  simpl. econstructor; [exact Hrun | auto].
Qed.

(** Each call of a sequence returns a problem of the operation and moves
    the cursor of the source by two, leaving the tape alone. *)
Lemma calls_drawn_as (op : string) (lo hi : Z) (g g' : rng)
    (ps : list Problem) :
  calls op lo hi g ps g' ->
  Forall (drawn_as op lo hi) ps
  /\ tape g' = tape g /\ pos g' = (pos g + 2 * length ps)%nat.
Proof.
  induction 1 as [g | g p g1 ps g2 Hrun _ (IHall & IHtape & IHpos)].
  - split; [constructor |]. split; [reflexivity | simpl; lia].
  - apply generate_problem_inv in Hrun as (_ & _ & -> & Hp).
    split; [constructor; assumption |].
    split; [exact IHtape |]. rewrite IHpos. simpl. lia.
Qed.

(** The unbound-local failure, for the list proofs. *)
Lemma run_unknown_operation (op : string) (lo hi : Z) (g : rng) :
  ~ In op operations ->
  runStateT (generate_problem op lo hi) g = inl UnboundLocalError.
Proof.
  intros Hnot.
  destruct (runStateT (generate_problem op lo hi) g) as [e | [p g']] eqn:Hrun.
  - unfold generate_problem in Hrun. unfold operations in Hnot. simpl in Hnot.
    destruct (String.eqb_spec op "addition"); [exfalso; auto |].
    destruct (String.eqb_spec op "subtraction"); [exfalso; auto |].
    destruct (String.eqb_spec op "multiplication"); [exfalso; auto |].
    destruct (String.eqb_spec op "division"); [exfalso; auto 6 |].
    cbn in Hrun. congruence.
  - apply generate_problem_inv in Hrun as (Hop & _). contradiction.
Qed.

(** X5: with a count of zero or less [generate_problems] returns the empty
    list without drawing anything, whatever the operation and the range,
    even ones for which a single call would raise. *)
Theorem generate_problems_nonpositive (op : string) (lo hi n : Z) (g : rng) :
  n <= 0 -> runStateT (generate_problems op lo hi n) g = inr ([], g).
Proof.
  intros Hn. unfold generate_problems, range.
  replace (Z.to_nat n) with 0%nat by lia. reflexivity.
Qed.

Lemma generate_problems_nonpositive_witness :
  -2 <= 0 /\
  runStateT (generate_problems "modulo" 9 1 (-2)) (constant_source 0 0)
  = inr ([], constant_source 0 0).
Proof.
  split; [lia |].
  apply (generate_problems_nonpositive "modulo" 9 1 (-2)). lia.
Defined.

(** X6: with a positive count the list fails as its first call does:
    UnboundLocalError for an operation outside the four names, ValueError
    for one of the four on an empty first range.  No partial list is
    returned. *)
Theorem generate_problems_raises (op : string) (lo hi n : Z) (g : rng) :
  0 < n ->
  (~ In op operations ->
   runStateT (generate_problems op lo hi n) g = inl UnboundLocalError)
  /\ (In op operations -> hi < first_range_low op lo ->
      runStateT (generate_problems op lo hi n) g = inl ValueError).
Proof.
  intros Hn. destruct (range_positive n Hn) as (rest & Hrange).
  unfold generate_problems. rewrite Hrange, run_for_each_cons. split.
  - intros Hnot. now rewrite run_unknown_operation.
  - intros Hop Hempty.
    apply in_operations in Hop as [-> | [-> | [-> | ->]]];
      cbv [first_range_low] in Hempty;
      cbn [String.eqb Ascii.eqb Bool.eqb] in Hempty;
      match goal with
      | |- match ?r with _ => _ end = _ =>
        replace r with (@inl exn (Problem * rng) ValueError);
          [reflexivity | symmetry; apply run_first_draw_empty; assumption]
      end.
Qed.

Lemma generate_problems_raises_witness :
  0 < 3 /\
  (~ In "modulo" operations ->
   runStateT (generate_problems "modulo" 0 9 3) (constant_source 0 0)
   = inl UnboundLocalError)
  /\ (In "modulo" operations -> 9 < first_range_low "modulo" 0 ->
      runStateT (generate_problems "modulo" 0 9 3) (constant_source 0 0)
      = inl ValueError).
Proof.
  split; [lia |].
  apply (generate_problems_raises "modulo" 0 9 3 (constant_source 0 0)). lia.
Defined.

(** X7: a list that is returned has max(0, count) problems, each made as
    the operation prescribes, and has taken exactly two draws per problem
    from the random source. *)
Theorem generate_problems_all_drawn (op : string) (lo hi n : Z) (g g' : rng)
    (ps : list Problem) :
  runStateT (generate_problems op lo hi n) g = inr (ps, g') ->
  len ps = Z.max 0 n
  /\ Forall (drawn_as op lo hi) ps
  /\ tape g' = tape g
  /\ pos g' = (pos g + 2 * length ps)%nat.
Proof.
  intros Hrun. apply generate_problems_inv in Hrun as (Hcalls & Hlen).
  split; [unfold len; lia |].
  now apply calls_drawn_as.
Qed.

Lemma generate_problems_all_drawn_witness :
  runStateT (generate_problems "addition" 0 9 2) (constant_source 4 0)
  = inr ([("4 + 4", 8); ("4 + 4", 8)], constant_source 4 4)
  /\ len [("4 + 4", 8); ("4 + 4", 8)] = Z.max 0 2
  /\ Forall (drawn_as "addition" 0 9) [("4 + 4", 8); ("4 + 4", 8)]
  /\ tape (constant_source 4 4) = tape (constant_source 4 0)
  /\ pos (constant_source 4 4)
     = (pos (constant_source 4 0) + 2 * length [("4 + 4", 8); ("4 + 4", 8)])%nat.
Proof.
  assert (Hrun : runStateT (generate_problems "addition" 0 9 2)
                   (constant_source 4 0)
                 = inr ([("4 + 4", 8); ("4 + 4", 8)], constant_source 4 4))
    by reflexivity.
  split; [exact Hrun |].
  exact (generate_problems_all_drawn "addition" 0 9 2 (constant_source 4 0)
           (constant_source 4 4) [("4 + 4", 8); ("4 + 4", 8)] Hrun).
Defined.

(** X8: generating n problems and then m more from where the source was
    left is generating n + m problems at once: the second list is appended
    to the first. *)
Theorem generate_problems_app (op : string) (lo hi n m : Z) (g g1 g2 : rng)
    (ps1 ps2 : list Problem) :
  0 <= n -> 0 <= m ->
  runStateT (generate_problems op lo hi n) g = inr (ps1, g1) ->
  runStateT (generate_problems op lo hi m) g1 = inr (ps2, g2) ->
  runStateT (generate_problems op lo hi (n + m)) g = inr ((ps1 ++ ps2)%list, g2).
Proof.
  intros Hn Hm H1 H2.
  apply generate_problems_inv in H1 as (Hc1 & Hl1).
  apply generate_problems_inv in H2 as (Hc2 & Hl2).
  apply generate_problems_calls.
  - eapply calls_app; eassumption.
  - rewrite length_app, Hl1, Hl2. lia.
Qed.

Lemma generate_problems_app_witness :
  (0 <= 1 /\ 0 <= 2) /\
  runStateT (generate_problems "addition" 0 9 1) (constant_source 4 0)
  = inr ([("4 + 4", 8)], constant_source 4 2)
  /\ runStateT (generate_problems "addition" 0 9 2) (constant_source 4 2)
     = inr ([("4 + 4", 8); ("4 + 4", 8)], constant_source 4 6)
  /\ runStateT (generate_problems "addition" 0 9 (1 + 2)) (constant_source 4 0)
     = inr (([("4 + 4", 8)] ++ [("4 + 4", 8); ("4 + 4", 8)])%list,
            constant_source 4 6).
Proof.
  assert (H1 : runStateT (generate_problems "addition" 0 9 1)
                 (constant_source 4 0)
               = inr ([("4 + 4", 8)], constant_source 4 2)) by reflexivity.
  assert (H2 : runStateT (generate_problems "addition" 0 9 2)
                 (constant_source 4 2)
               = inr ([("4 + 4", 8); ("4 + 4", 8)], constant_source 4 6))
    by reflexivity.
  split; [lia |]. split; [exact H1 |]. split; [exact H2 |].
  apply (generate_problems_app "addition" 0 9 1 2 (constant_source 4 0)
           (constant_source 4 2) (constant_source 4 6)); [lia | lia | exact H1 | exact H2].
Defined.

(* ===================================================================== *)
(** ** The dialogue and the run                                          *)
(* ===================================================================== *)



Lemma run_list_empty_range (op : string) (lo hi n : Z) (g : rng) :
  In op operations -> 0 < n -> hi < first_range_low op lo ->
  runStateT (generate_problems op lo hi n) g = inl ValueError.
Proof.
  intros Hop Hn Hempty. destruct (range_positive n Hn) as (rest & Hrange).
  unfold generate_problems. rewrite Hrange, run_for_each_cons.
  apply in_operations in Hop as [-> | [-> | [-> | ->]]];
    cbv [first_range_low] in Hempty;
    cbn [String.eqb Ascii.eqb Bool.eqb] in Hempty;
    match goal with
    | |- match ?r with _ => _ end = _ =>
      replace r with (@inl exn (Problem * rng) ValueError);
        [reflexivity | symmetry; apply run_first_draw_empty; assumption]
    end.
Qed.

Lemma dict_get_operations (c : Z) :
  1 <= c <= 4 ->
  exists op, dict_get operations_dict c = Some op /\ In op operations.
Proof.
  intros H.
  assert (Hc : c = 1 \/ c = 2 \/ c = 3 \/ c = 4) by lia.
  destruct Hc as [-> | [-> | [-> | ->]]]; eexists; (split; [reflexivity |]);
    simpl; auto 6.
Qed.

Section DialogueFacts.

Variable int : string -> option Z.
Variable strip : string -> string.

Lemma read_choice_result (stdin : list string) :
  forall out r out',
    read_choice int stdin out = (r, out') ->
    match r with
    | inl e => e = EOFError
    | inr (c, rest) =>
      1 <= c <= 4
      /\ exists skipped l, stdin = (skipped ++ l :: rest)%list /\ int l = Some c
    end.
Proof.
  induction stdin as [| l stdin IH]; intros out r out' Hrun; cbn in Hrun.
  - inversion Hrun; subst. reflexivity.
  - destruct (int l) as [c |] eqn:Hl.
    + destruct ((1 <=? c) && (c <=? 4)) eqn:Hc.
      * inversion Hrun; subst.
        apply andb_prop in Hc as [H1 H4].
        apply Z.leb_le in H1. apply Z.leb_le in H4.
        split; [lia |]. exists [], l. auto.
      * apply IH in Hrun. destruct r as [e | [c' rest]]; [assumption |].
        destruct Hrun as (Hc' & skipped & l' & -> & Hl').
        split; [assumption |]. exists (l :: skipped), l'. auto.
    + apply IH in Hrun. destruct r as [e | [c' rest]]; [assumption |].
      destruct Hrun as (Hc' & skipped & l' & -> & Hl').
      split; [assumption |]. exists (l :: skipped), l'. auto.
Qed.

Lemma read_count_result (stdin : list string) :
  forall out r out',
    read_count int stdin out = (r, out') ->
    match r with
    | inl e => e = EOFError
    | inr (n, rest) =>
      0 < n
      /\ exists skipped l, stdin = (skipped ++ l :: rest)%list /\ int l = Some n
    end.
Proof.
  induction stdin as [| l stdin IH]; intros out r out' Hrun; cbn in Hrun.
  - inversion Hrun; subst. reflexivity.
  - destruct (int l) as [n |] eqn:Hl.
    + destruct (Z.ltb_spec 0 n) as [Hn | Hn].
      * inversion Hrun; subst. split; [lia |]. exists [], l. auto.
      * apply IH in Hrun. destruct r as [e | [n' rest]]; [assumption |].
        destruct Hrun as (Hn' & skipped & l' & -> & Hl').
        split; [assumption |]. exists (l :: skipped), l'. auto.
    + apply IH in Hrun. destruct r as [e | [n' rest]]; [assumption |].
      destruct Hrun as (Hn' & skipped & l' & -> & Hl').
      split; [assumption |]. exists (l :: skipped), l'. auto.
Qed.



End DialogueFacts.

(* ===================================================================== *)
(** ** The typed lines behind the parameters                             *)
(* ===================================================================== *)

Section TypedLines.

Variable int : string -> option Z.
Variable strip : string -> string.

Lemma read_count_out (stdin : list string) :
  forall out r out',
    read_count int stdin out = (r, out') ->
    exists more, out' = (out ++ more)%list.
Proof.
  induction stdin as [| l stdin IH]; intros out r out' Hrun; cbn in Hrun.
  - inversion Hrun; subst. eauto.
  - destruct (int l) as [n |].
    + destruct (0 <? n).
      * inversion Hrun; subst. eauto.
      * apply IH in Hrun as (more & ->). rewrite <- app_assoc. eauto.
    + apply IH in Hrun as (more & ->). rewrite <- app_assoc. eauto.
Qed.

(** The pair the range loop returns was typed as two successive lines
    after the rounds it refused; a division minimum below 1 leaves the
    note in the output. *)
Lemma read_range_typed (operation : string) (n : nat) :
  forall stdin out lo hi rest out',
    (length stdin <= n)%nat ->
    read_range int operation stdin out = (inr (lo, hi, rest), out') ->
    exists skipped l1 l2 lo0,
      stdin = (skipped ++ l1 :: l2 :: rest)%list
      /\ int l1 = Some lo0 /\ int l2 = Some hi /\ lo0 < hi
      /\ lo = first_range_low operation lo0
      /\ (operation = "division" -> lo0 < 1 -> In msg_division out').
Proof.
  induction n as [| n IH]; intros stdin out lo hi rest out' Hlen Hrun.
  - destruct stdin; [discriminate Hrun | simpl in Hlen; lia].
  - destruct stdin as [| l1 rest1]; [discriminate Hrun |].
    simpl in Hlen. cbn [read_range] in Hrun.
    destruct (int l1) as [lo0 |] eqn:H1.
    + destruct rest1 as [| l2 rest2]; [discriminate Hrun |].
      simpl in Hlen.
      destruct (int l2) as [hi0 |] eqn:H2.
      * destruct (Z.ltb_spec lo0 hi0) as [Hlt | Hge].
        -- exists [], l1, l2, lo0. unfold first_range_low.
           destruct (String.eqb_spec operation "division") as [Hd | Hd];
             cbn [andb] in Hrun.
           ++ destruct (Z.ltb_spec lo0 1); inversion Hrun; subst;
                (repeat split; auto; try lia).
              intros _ _. apply in_or_app. right. simpl. auto.
           ++ inversion Hrun; subst. repeat split; auto.
              intros Hop. contradiction.
        -- apply IH in Hrun; [| lia].
           destruct Hrun as (skipped & m1 & m2 & v & -> & Hrest).
           exists (l1 :: l2 :: skipped), m1, m2, v. auto.
      * apply IH in Hrun; [| lia].
        destruct Hrun as (skipped & m1 & m2 & v & -> & Hrest).
        exists (l1 :: l2 :: skipped), m1, m2, v. auto.
    + apply IH in Hrun; [| lia].
      destruct Hrun as (skipped & m1 & m2 & v & -> & Hrest).
      exists (l1 :: skipped), m1, m2, v. auto.
Qed.

(** The parameters [get_user_input] returns, traced to the lines typed:
    the choice, then the two lines of the range, then the count and the
    name, each after the entries that were refused. *)
Lemma get_user_input_typed (stdin rest out : list string) (params : Params) :
  get_user_input int strip stdin = (inr (params, rest), out) ->
  exists s0 c s1 l1 l2 s2 l3 name choice lo0,
    stdin = (s0 ++ c :: s1 ++ l1 :: l2 :: s2 ++ l3 :: name :: rest)%list
    /\ int c = Some choice
    /\ dict_get operations_dict choice = Some (operation params)
    /\ In (operation params) operations
    /\ int l1 = Some lo0 /\ int l2 = Some (max_num params)
    /\ lo0 < max_num params
    /\ min_num params = first_range_low (operation params) lo0
    /\ int l3 = Some (num_questions params) /\ 0 < num_questions params
    /\ student_name params = strip name
    /\ (operation params = "division" -> lo0 < 1 -> In msg_division out).
Proof.
  unfold get_user_input. intros Hrun.
  destruct (read_choice int stdin banner) as [[e | [choice stdin1]] out1] eqn:H1;
    [discriminate Hrun |].
  apply read_choice_result in H1 as (Hc & s0 & c & -> & Hic).
  destruct (dict_get_operations choice Hc) as (op & Hget & Hop).
  rewrite Hget in Hrun.
  destruct (read_range int op stdin1 (out1 ++ [msg_range_title])%list)
    as [[e | [[lo hi] stdin2]] out2] eqn:H2; [discriminate Hrun |].
  apply (read_range_typed op (length stdin1)) in H2; [| apply Nat.le_refl].
  destruct H2 as (s1 & l1 & l2 & lo0 & -> & Hl1 & Hl2 & Hlt & Hlo & Hnote).
  destruct (read_count int stdin2 (out2 ++ [msg_count_title])%list)
    as [[e | [n stdin3]] out3] eqn:H3; [discriminate Hrun |].
  pose proof (read_count_out _ _ _ _ H3) as (more & Hout3).
  apply read_count_result in H3 as (Hn & s2 & l3 & -> & Hl3).
  destruct stdin3 as [| name stdin4]; [discriminate Hrun |].
  inversion Hrun; subst. cbn [operation min_num max_num num_questions student_name].
  exists s0, c, s1, l1, l2, s2, l3, name, choice, lo0.
  repeat (split; [solve [auto] |]).
  intros Hd Hlow. apply in_or_app. left. apply in_or_app. left.
  apply in_or_app. left. auto.
Qed.

End TypedLines.

(** A division problem over a range that starts at 1 or above has a
    divisor and an answer of at least 1. *)
Lemma drawn_as_division_positive (lo hi : Z) (p : Problem) :
  1 <= lo -> drawn_as "division" lo hi p ->
  exists answer b,
    p = (str (b * answer) ++ " \div " ++ str b, answer)
    /\ 1 <= b /\ 1 <= answer.
Proof.
  intros Hlo (a & b & [H | [H | [H | H]]]);
    destruct H as (Hop & Hp & Ha & Hb); try discriminate Hop.
  exists a, b. split; [exact Hp | lia].
Qed.

(** C7, as stated, fails on "silently": typing the minimum 0 for a
    division gives the same parameters as typing 1, but the program prints
    the note about the minimum, which the other dialogue does not show. *)
Lemma division_coercion_prints_note :
  fst (get_user_input int_decimal (fun s => s) ["4"; "0"; "10"; "12"; "Ann"])
  = fst (get_user_input int_decimal (fun s => s) ["4"; "1"; "10"; "12"; "Ann"])
  /\ existsb (String.eqb msg_division)
       (snd (get_user_input int_decimal (fun s => s)
               ["4"; "0"; "10"; "12"; "Ann"])) = true
  /\ existsb (String.eqb msg_division)
       (snd (get_user_input int_decimal (fun s => s)
               ["4"; "1"; "10"; "12"; "Ann"])) = false.
Proof. repeat split. Qed.

(** C7, amended: in every run for a division the minimum used for
    generation is at least 1.  A typed minimum below the maximum is
    accepted in the round it is typed, with no exception and no new
    question; it is used as typed when it is 1 or more and replaced by 1
    when it is lower, and in that case the program prints one line of
    notice.  For a dialogue answered at the first try the whole output is
    given: the notice is in it in that case and in no other.  Every divisor
    and every answer generated in the run is then at least 1. *)
Theorem division_min_at_least_one (int : string -> option Z)
    (strip : string -> string) :
  (forall c l1 l2 l3 name rest lo0 hi n,
      int c = Some 4 -> int l1 = Some lo0 -> int l2 = Some hi ->
      int l3 = Some n -> lo0 < hi -> 0 < n ->
      get_user_input int strip (c :: l1 :: l2 :: l3 :: name :: rest)
      = (inr ({| operation := "division"; min_num := Z.max 1 lo0;
                 max_num := hi; num_questions := n;
                 student_name := strip name |}, rest),
         (banner ++ [prompt_choice; msg_range_title; prompt_min; prompt_max]
            ++ (if lo0 <? 1 then [msg_division] else [])
            ++ [msg_count_title; prompt_count; prompt_name])%list))
  /\
  (forall stdin rest out params,
      get_user_input int strip stdin = (inr (params, rest), out) ->
      operation params = "division" ->
      1 <= min_num params
      /\ (exists before l1 l2 after lo0,
             stdin = (before ++ l1 :: l2 :: after)%list
             /\ int l1 = Some lo0 /\ int l2 = Some (max_num params)
             /\ lo0 < max_num params
             /\ min_num params = Z.max 1 lo0
             /\ (lo0 < 1 -> In msg_division out))
      /\ (forall g problems,
             ask_and_generate int strip stdin g = inr (params, problems) ->
             Forall (fun p => exists answer b,
                         p = (str (b * answer) ++ " \div " ++ str b, answer)
                         /\ 1 <= b /\ 1 <= answer) problems)).
Proof.
  split.
  - intros c l1 l2 l3 name rest lo0 hi n Hc H1 H2 H3 Hlt Hn.
    unfold get_user_input. cbn [read_choice]. rewrite Hc.
    cbn [Z.leb Z.compare Pos.compare Pos.compare_cont andb negb dict_get
         operations_dict Z.eqb Pos.eqb].
    cbn [read_range]. rewrite H1, H2.
    destruct (Z.ltb_spec lo0 hi) as [_ | Hge]; [| lia].
    cbn [String.eqb Ascii.eqb Bool.eqb andb].
    destruct (Z.ltb_spec lo0 1) as [Hlow | Hhigh];
      cbn [read_count]; rewrite H3;
      (destruct (Z.ltb_spec 0 n) as [_ | Hn0]; [| lia]).
    + rewrite Z.max_l by lia. rewrite <- !app_assoc. reflexivity.
    + rewrite Z.max_r by lia. rewrite <- !app_assoc. reflexivity.
  - intros stdin rest out params Hrun Hd.
    destruct (get_user_input_typed int strip _ _ _ _ Hrun)
      as (s0 & c & s1 & l1 & l2 & s2 & l3 & name & choice & lo0 & Hstdin
          & _ & _ & _ & Hl1 & Hl2 & Hlt & Hmin & _ & _ & _ & Hnote).
    rewrite Hd, first_range_low_division in Hmin.
    split; [lia |]. split.
    + exists (s0 ++ c :: s1)%list, l1, l2, (s2 ++ l3 :: name :: rest)%list, lo0.
      split; [rewrite Hstdin, <- app_assoc; reflexivity |].
      repeat (split; [assumption |]). exact (Hnote Hd).
    + intros g problems Hgen. unfold ask_and_generate in Hgen.
      rewrite Hrun in Hgen. cbn [fst] in Hgen.
      destruct (runStateT _ g) as [e | [ps g']] eqn:Hps; [discriminate Hgen |].
      inversion Hgen; subst ps.
      apply generate_problems_inv in Hps as (Hcalls & _).
      apply calls_drawn_as in Hcalls as (Hall & _).
      rewrite Hd in Hall.
      eapply Forall_impl; [| exact Hall].
      intros p Hp. apply (drawn_as_division_positive (min_num params)
                            (max_num params)); [lia | exact Hp].
Qed.

Lemma division_min_at_least_one_witness :
  get_user_input int_decimal (fun s => s) ["4"; "0"; "10"; "12"; "Ann"]
  = (inr ({| operation := "division"; min_num := Z.max 1 0; max_num := 10;
             num_questions := 12; student_name := "Ann" |}, []),
     (banner ++ [prompt_choice; msg_range_title; prompt_min; prompt_max]
        ++ (if 0 <? 1 then [msg_division] else [])
        ++ [msg_count_title; prompt_count; prompt_name])%list)
  /\ 1 <= Z.max 1 0
  /\ (forall g problems,
         ask_and_generate int_decimal (fun s => s)
           ["4"; "0"; "10"; "12"; "Ann"] g
         = inr ({| operation := "division"; min_num := Z.max 1 0;
                   max_num := 10; num_questions := 12;
                   student_name := "Ann" |}, problems) ->
         Forall (fun p => exists answer b,
                     p = (str (b * answer) ++ " \div " ++ str b, answer)
                     /\ 1 <= b /\ 1 <= answer) problems).
Proof.
  pose proof (division_min_at_least_one int_decimal (fun s => s)) as [Ha Hb].
  assert (Hrun := Ha "4" "0" "10" "12" "Ann" [] 0 10 12
                    eq_refl eq_refl eq_refl eq_refl eq_refl eq_refl).
  split; [exact Hrun |].
  destruct (Hb _ _ _ _ Hrun eq_refl) as (Hmin & _ & Hgen).
  split; [exact Hmin | exact Hgen].
Defined.

(** X9: the parameters [get_user_input] returns are the ones typed: the
    input is the refused entries and, in this order, the line of the
    choice, the two lines of the range, the line of the count and the
    name, followed by the lines left unread.  The operation is the
    dictionary entry of the choice, max_num is the typed maximum and is
    above the typed minimum, num_questions is the typed count and is
    positive, the name is the stripped line; min_num is the typed minimum,
    except for a division, where it is raised to 1 when lower. *)
Theorem get_user_input_parameters (int : string -> option Z)
    (strip : string -> string) (stdin rest out : list string)
    (params : Params) :
  get_user_input int strip stdin = (inr (params, rest), out) ->
  exists s0 c s1 l1 l2 s2 l3 name choice lo0,
    stdin = (s0 ++ c :: s1 ++ l1 :: l2 :: s2 ++ l3 :: name :: rest)%list
    /\ int c = Some choice
    /\ dict_get operations_dict choice = Some (operation params)
    /\ In (operation params) operations
    /\ int l1 = Some lo0 /\ int l2 = Some (max_num params)
    /\ lo0 < max_num params
    /\ int l3 = Some (num_questions params) /\ 0 < num_questions params
    /\ student_name params = strip name
    /\ (operation params <> "division" ->
        min_num params = lo0 /\ min_num params < max_num params)
    /\ (operation params = "division" ->
        min_num params = Z.max 1 lo0 /\ 1 <= min_num params).
Proof.
  intros Hrun.
  destruct (get_user_input_typed int strip _ _ _ _ Hrun)
    as (s0 & c & s1 & l1 & l2 & s2 & l3 & name & choice & lo0 & Hstdin
        & Hc & Hget & Hop & Hl1 & Hl2 & Hlt & Hmin & Hl3 & Hn & Hname & _).
  exists s0, c, s1, l1, l2, s2, l3, name, choice, lo0.
  repeat (split; [assumption |]).
  unfold first_range_low in Hmin. split.
  - intros Hne. apply String.eqb_neq in Hne. rewrite Hne in Hmin. lia.
  - intros Hd. rewrite Hd in Hmin. cbn in Hmin. lia.
Qed.

Lemma get_user_input_parameters_witness :
  get_user_input int_decimal (fun s => s)
    ["9"; "4"; "x"; "5"; "2"; "0"; "10"; "0"; "12"; " Ann"; "more"]
  = (inr ({| operation := "division"; min_num := 1; max_num := 10;
             num_questions := 12; student_name := " Ann" |}, ["more"]),
     (banner ++ [prompt_choice; msg_choice_range; prompt_choice;
                 msg_range_title; prompt_min; msg_invalid;
                 prompt_min; prompt_max; msg_order;
                 prompt_min; prompt_max; msg_division;
                 msg_count_title; prompt_count; msg_count_positive;
                 prompt_count; prompt_name])%list)
  /\ exists s0 c s1 l1 l2 s2 l3 name choice lo0,
       ["9"; "4"; "x"; "5"; "2"; "0"; "10"; "0"; "12"; " Ann"; "more"]
       = (s0 ++ c :: s1 ++ l1 :: l2 :: s2 ++ l3 :: name :: ["more"])%list
       /\ int_decimal c = Some choice
       /\ dict_get operations_dict choice = Some "division"
       /\ In "division" operations
       /\ int_decimal l1 = Some lo0 /\ int_decimal l2 = Some 10
       /\ lo0 < 10
       /\ int_decimal l3 = Some 12 /\ 0 < 12
       /\ " Ann" = (fun s : string => s) name
       /\ ("division" <> "division" -> 1 = lo0 /\ 1 < 10)
       /\ ("division" = "division" -> 1 = Z.max 1 lo0 /\ 1 <= 1).
Proof.
  assert (Hrun :
    get_user_input int_decimal (fun s => s)
      ["9"; "4"; "x"; "5"; "2"; "0"; "10"; "0"; "12"; " Ann"; "more"]
    = (inr ({| operation := "division"; min_num := 1; max_num := 10;
               num_questions := 12; student_name := " Ann" |}, ["more"]),
       (banner ++ [prompt_choice; msg_choice_range; prompt_choice;
                   msg_range_title; prompt_min; msg_invalid;
                   prompt_min; prompt_max; msg_order;
                   prompt_min; prompt_max; msg_division;
                   msg_count_title; prompt_count; msg_count_positive;
                   prompt_count; prompt_name])%list)) by reflexivity.
  split; [exact Hrun |].
  exact (get_user_input_parameters int_decimal (fun s => s) _ _ _ _ Hrun).
Defined.






(** X12: a division range typed with a maximum of 0 or less is accepted,
    because the minimum is raised to 1 after it was compared with the
    maximum, and the run then stops with ValueError in the generator. *)
Theorem division_below_one_crashes (int : string -> option Z)
    (strip : string -> string) (c l1 l2 l3 name : string)
    (rest : list string) (lo0 hi n : Z) (g : rng) :
  int c = Some 4 -> int l1 = Some lo0 -> int l2 = Some hi ->
  int l3 = Some n -> lo0 < hi -> hi < 1 -> 0 < n ->
  fst (get_user_input int strip (c :: l1 :: l2 :: l3 :: name :: rest))
  = inr ({| operation := "division"; min_num := 1; max_num := hi;
            num_questions := n; student_name := strip name |}, rest)
  /\ ask_and_generate int strip (c :: l1 :: l2 :: l3 :: name :: rest) g
     = inl (Raised ValueError).
Proof.
  intros Hc H1 H2 H3 Hlt Hhi Hn.
  assert (Hinput :
    fst (get_user_input int strip (c :: l1 :: l2 :: l3 :: name :: rest))
    = inr ({| operation := "division"; min_num := 1; max_num := hi;
              num_questions := n; student_name := strip name |}, rest)).
  { unfold get_user_input. cbn [read_choice]. rewrite Hc.
    cbn [Z.leb Z.compare Pos.compare Pos.compare_cont andb negb dict_get
         operations_dict Z.eqb Pos.eqb].
    rewrite (read_range_division_note int l1 l2 lo0 hi) by (assumption || lia).
    cbn [read_count]. rewrite H3.
    destruct (Z.ltb_spec 0 n); [reflexivity | lia]. }
  split; [exact Hinput |].
  unfold ask_and_generate. rewrite Hinput. cbn [operation min_num max_num num_questions].
  rewrite run_list_empty_range; [reflexivity | simpl; auto 6 | assumption |].
  rewrite first_range_low_division. lia.
Qed.

Lemma division_below_one_crashes_witness :
  (int_decimal "4" = Some 4 /\ int_decimal "-5" = Some (-5)
   /\ int_decimal "0" = Some 0 /\ int_decimal "3" = Some 3
   /\ -5 < 0 /\ 0 < 1 /\ 0 < 3)
  /\ fst (get_user_input int_decimal (fun s => s) ["4"; "-5"; "0"; "3"; ""])
     = inr ({| operation := "division"; min_num := 1; max_num := 0;
               num_questions := 3; student_name := "" |}, [])
  /\ ask_and_generate int_decimal (fun s => s) ["4"; "-5"; "0"; "3"; ""]
       (constant_source 0 0)
     = inl (Raised ValueError).
Proof.
  split; [repeat split; reflexivity |].
  apply (division_below_one_crashes int_decimal (fun s => s)
           "4" "-5" "0" "3" "" [] (-5) 0 3 (constant_source 0 0));
    reflexivity.
Defined.

(* ===================================================================== *)
(** ** Further properties of the rendered table                          *)
(* ===================================================================== *)

Lemma fill_without_answers (columns n : Z) (ps : list Problem) :
  forall ps' i st,
    map fst ps = map fst ps' ->
    fold_left (fill_step false columns n) (enumerate_from i ps) st =
    fold_left (fill_step false columns n) (enumerate_from i ps') st.
Proof.
  induction ps as [| [p a] ps IH]; intros [| [p' a'] ps'] i st Heq;
    try discriminate Heq; [reflexivity |].
  injection Heq as -> Heq. cbn [enumerate_from fold_left].
  change (fill_step false columns n st (i, (p', a)))
    with (fill_step false columns n st (i, (p', a'))).
  now apply IH.
Qed.

(** X14: the worksheet does not depend on the answers: two problem lists
    with the same expressions give the same worksheet text. *)
Theorem worksheet_hides_answers (ps ps' : list Problem) (params : Params)
    (today : string) :
  map fst ps = map fst ps' ->
  generate_latex ps params today false = generate_latex ps' params today false.
Proof.
  intros Heq.
  assert (Hlen : len ps = len ps').
  { pose proof (f_equal (@length string) Heq) as Hl.
    rewrite !length_map in Hl. unfold len. f_equal. exact Hl. }
  unfold generate_latex, fill_problems, enumerate. cbv zeta.
  rewrite <- Hlen.
  now rewrite (fill_without_answers _ _ ps ps').
Qed.

Lemma worksheet_hides_answers_witness :
  map fst [("1 + 2", 3); ("9 - 4", 5)] = map fst [("1 + 2", 0); ("9 - 4", 77)]
  /\ generate_latex [("1 + 2", 3); ("9 - 4", 5)]
       {| operation := "addition"; min_num := 0; max_num := 9;
          num_questions := 2; student_name := "" |} "01/01/2026" false
     = generate_latex [("1 + 2", 0); ("9 - 4", 77)]
         {| operation := "addition"; min_num := 0; max_num := 9;
            num_questions := 2; student_name := "" |} "01/01/2026" false.
Proof.
  split; [reflexivity |].
  apply (worksheet_hides_answers [("1 + 2", 3); ("9 - 4", 5)]
           [("1 + 2", 0); ("9 - 4", 77)]).
  reflexivity.
Defined.

Lemma count_char_append (c : ascii) (s1 s2 : string) :
  count_char c (s1 ++ s2) = (count_char c s1 + count_char c s2)%nat.
Proof.
  induction s1 as [| c1 s1 IH]; simpl; [reflexivity |]. rewrite IH. lia.
Qed.

Lemma string_of_uint_no_separator (d : Decimal.uint) :
  count_char separator (NilEmpty.string_of_uint d) = 0%nat.
Proof. induction d; simpl; auto. Qed.

Lemma str_no_separator (n : Z) : count_char separator (str n) = 0%nat.
Proof.
  destruct n as [| p | p].
  - reflexivity.
  - rewrite str_pos. apply string_of_uint_no_separator.
  - rewrite str_neg. simpl. apply string_of_uint_no_separator.
Qed.

Lemma cell_separators (show_answers : bool) (q_num : Z) (problem : string)
    (answer : Z) :
  count_char separator (cell show_answers q_num problem answer)
  = S (count_char separator problem).
Proof.
  unfold cell. destruct show_answers;
    repeat (rewrite count_char_append; cbn [count_char Ascii.eqb Bool.eqb separator]);
    rewrite ?str_no_separator; cbn [count_char Ascii.eqb Bool.eqb separator];
    lia.
Qed.

Lemma join_separators (r : list string) :
  Forall (fun s => count_char separator s = 1%nat) r ->
  r <> [] ->
  count_char separator (join " & " r) = (2 * length r - 1)%nat.
Proof.
  induction 1 as [| s r Hs Hr IH]; intros Hne; [contradiction |].
  destruct r as [| s2 r].
  - simpl. rewrite Hs. reflexivity.
  - change (join " & " (s :: s2 :: r))
      with (s ++ " & " ++ join " & " (s2 :: r)).
    rewrite !count_char_append, Hs, IH by discriminate.
    cbn [count_char Ascii.eqb Bool.eqb separator length]. lia.
Qed.

Lemma drawn_as_no_separator (op : string) (lo hi : Z) (p : Problem) :
  drawn_as op lo hi p -> count_char separator (fst p) = 0%nat.
Proof.
  intros (a & b & [H | [H | [H | H]]]); destruct H as (_ & -> & _);
    cbn [fst]; rewrite !count_char_append, !str_no_separator; reflexivity.
Qed.

Lemma in_enumerate_from {A : Type} (xs : list A) :
  forall i j x, In (j, x) (enumerate_from i xs) -> In x xs.
Proof.
  induction xs as [| y xs IH]; intros i j x; cbn [enumerate_from].
  - intros [].
  - intros [H | H]; [inversion H; subst; left; reflexivity |].
    right. eapply IH; eassumption.
Qed.

(** X15: when no expression contains the separator "&", and the
    expressions the generator writes never do, every row of the table holds
    exactly 2 * columns - 1 separators, padded or not: each row fills the
    2 * columns cells the column specification declares. *)
Theorem row_separators (problems : list Problem) (show_answers : bool) :
  (forall op lo hi p, drawn_as op lo hi p ->
                      count_char separator (fst p) = 0%nat)
  /\ (Forall (fun p => count_char separator (fst p) = 0%nat) problems ->
      Forall (fun r => Z.of_nat (count_char separator (render_row r))
                       = 2 * columns_for (len problems) - 1)
        (table_rows show_answers (columns_for (len problems)) problems)).
Proof.
  split; [exact drawn_as_no_separator |].
  intros Hclean.
  assert (Hc : 1 <= columns_for (len problems))
    by (destruct (columns_for_cases (len problems)) as [-> | [-> | ->]]; lia).
  destruct (pack_structure (columns_for (len problems)) problems Hc)
    as (k & Hall & Hk & Hcat).
  unfold table_rows. apply Forall_map.
  rewrite Forall_forall in Hall |- *. intros r Hr.
  assert (Hone : Forall (fun s => count_char separator s = 1%nat)
                   (map (entry_text show_answers) r)).
  { apply Forall_map. rewrite Forall_forall. intros e He.
    assert (Hin : In e (concat (pack (columns_for (len problems)) problems)))
      by (apply in_concat; eauto).
    rewrite Hcat in Hin. apply in_app_or in Hin as [Hin | Hin].
    - apply in_map_iff in Hin as ([i [problem answer]] & <- & Hin).
      cbn [entry_text]. rewrite cell_separators.
      apply in_enumerate_from in Hin.
      rewrite Forall_forall in Hclean. specialize (Hclean _ Hin).
      cbn [fst] in Hclean. now rewrite Hclean.
    - apply repeat_spec in Hin. subst e. reflexivity. }
  specialize (Hall r Hr). cbn beta in Hall.
  assert (Hlen : length (map (entry_text show_answers) r)
                 = Z.to_nat (columns_for (len problems)))
    by (rewrite length_map, <- Hall; unfold len; now rewrite Nat2Z.id).
  unfold render_row. rewrite !count_char_append, join_separators.
  - rewrite Hlen. cbn [count_char Ascii.eqb Bool.eqb separator nl]. lia.
  - exact Hone.
  - intros Hnil. rewrite Hnil in Hlen. simpl in Hlen. lia.
Qed.

Lemma row_separators_witness :
  Forall (fun p => count_char separator (fst p) = 0%nat)
    [("1 + 2", 3); ("9 - 4", 5); ("2 \times 2", 4); ("8 \div 2", 4)]
  /\ Forall (fun r => Z.of_nat (count_char separator (render_row r))
                      = 2 * columns_for 4 - 1)
       (table_rows true (columns_for 4)
          [("1 + 2", 3); ("9 - 4", 5); ("2 \times 2", 4); ("8 \div 2", 4)]).
Proof.
  assert (Hclean :
    Forall (fun p => count_char separator (fst p) = 0%nat)
      [("1 + 2", 3); ("9 - 4", 5); ("2 \times 2", 4); ("8 \div 2", 4)])
    by (repeat constructor).
  split; [exact Hclean |].
  exact (proj2 (row_separators
                  [("1 + 2", 3); ("9 - 4", 5); ("2 \times 2", 4); ("8 \div 2", 4)]
                  true) Hclean).
Defined.

(** Every row the loop closes begins with a problem: padding only follows
    problems. *)
Lemma pack_rows_start (columns n : Z) (xs : list Problem) :
  forall i row rows,
    (row = [] \/ exists ip rest, row = Some ip :: rest) ->
    Forall (fun r : list entry => exists ip rest, r = Some ip :: rest) rows ->
    Forall (fun r : list entry => exists ip rest, r = Some ip :: rest)
      (snd (fold_left (pack_step columns n) (enumerate_from i xs) (row, rows))).
Proof.
  induction xs as [| x xs IH]; intros i row rows Hrow Hrows; [exact Hrows |].
  cbn [enumerate_from fold_left]. unfold pack_step at 2. cbv zeta.
  cbn [fst snd].
  destruct Hrow as [-> | (ip & rest & ->)]; cbn [app];
    match goal with
    | |- context [if ?b then _ else _] => destruct b
    end.
  - apply IH; [left; reflexivity |].
    apply Forall_app. split; [exact Hrows |].
    constructor; [eauto | constructor].
  - apply IH; [right; eauto | exact Hrows].
  - apply IH; [left; reflexivity |].
    apply Forall_app. split; [exact Hrows |].
    constructor; [eauto | constructor].
  - apply IH; [right; eauto | exact Hrows].
Qed.

Lemma string_of_uint_one_line (d : Decimal.uint) :
  count_char "010"%char (NilEmpty.string_of_uint d) = 0%nat.
Proof. induction d; simpl; auto. Qed.

Lemma str_one_line (n : Z) : count_char "010"%char (str n) = 0%nat.
Proof.
  destruct n as [| p | p].
  - reflexivity.
  - rewrite str_pos. apply string_of_uint_one_line.
  - rewrite str_neg. simpl. apply string_of_uint_one_line.
Qed.

Lemma cell_lines (show_answers : bool) (q_num : Z) (problem : string)
    (answer : Z) :
  count_char "010"%char (cell show_answers q_num problem answer)
  = count_char "010"%char problem.
Proof.
  unfold cell. destruct show_answers;
    repeat (rewrite count_char_append; cbn [count_char Ascii.eqb Bool.eqb]);
    rewrite ?str_one_line; cbn [count_char Ascii.eqb Bool.eqb]; lia.
Qed.

Lemma join_lines (r : list string) :
  Forall (fun s => count_char "010"%char s = 0%nat) r ->
  count_char "010"%char (join " & " r) = 0%nat.
Proof.
  induction 1 as [| s r Hs Hr IH]; [reflexivity |].
  destruct r as [| s2 r].
  - simpl. exact Hs.
  - change (join " & " (s :: s2 :: r))
      with (s ++ " & " ++ join " & " (s2 :: r)).
    rewrite !count_char_append, Hs, IH. reflexivity.
Qed.

Lemma render_rows_lines (rows : list (list string)) :
  Forall (Forall (fun s => count_char "010"%char s = 0%nat)) rows ->
  Z.of_nat (count_char "010"%char (render_rows rows)) = 2 * len rows.
Proof.
  induction 1 as [| r rows Hr _ IH]; [reflexivity |].
  cbn [render_rows]. unfold render_row.
  rewrite !count_char_append, join_lines by exact Hr.
  rewrite len_cons. cbn [count_char Ascii.eqb Bool.eqb nl]. lia.
Qed.

(** X13: the table of [generate_latex] is the rendering of the
    ceil(n / columns) rows its loop closes for n problems: none for an
    empty list, and each beginning with the cell of a problem, so that no
    row is made of padding only.  When no expression contains a line
    break, the text of the table has exactly two line ends per row. *)
Theorem row_count (problems : list Problem) (params : Params)
    (today : string) (show_answers : bool) :
  let n := len problems in
  let columns := columns_for n in
  let rows := table_rows show_answers columns problems in
  generate_latex problems params today show_answers =
    document_tail show_answers
      (document_head params today show_answers columns ++ render_rows rows)
  /\ len rows = (n + columns - 1) / columns
  /\ Forall (fun r => exists i problem answer rest,
                 r = cell show_answers (i + 1) problem answer :: rest) rows
  /\ (problems = [] -> rows = [])
  /\ (Forall (fun p => count_char "010"%char (fst p) = 0%nat) problems ->
      Z.of_nat (count_char "010"%char (render_rows rows))
      = 2 * ((n + columns - 1) / columns)).
Proof.
  cbv zeta.
  assert (Hc : 1 <= columns_for (len problems))
    by (destruct (columns_for_cases (len problems)) as [-> | [-> | ->]]; lia).
  destruct (pack_structure (columns_for (len problems)) problems Hc)
    as (k & Hall & Hk & Hcat).
  assert (Hcount :
    len (table_rows show_answers (columns_for (len problems)) problems)
    = (len problems + columns_for (len problems) - 1)
      / columns_for (len problems)).
  { unfold table_rows. rewrite len_map.
    pose proof (len_concat_uniform _ _ Hall) as Hlen.
    rewrite Hcat, len_app, len_map, len_repeat in Hlen.
    unfold enumerate in Hlen. rewrite len_enumerate_from in Hlen.
    apply (Z.div_unique _ _ _ (columns_for (len problems) - 1 - Z.of_nat k));
      lia. }
  split; [apply generate_latex_parts |]. split; [exact Hcount |].
  split; [| split].
  - unfold table_rows, pack. apply Forall_map.
    eapply Forall_impl;
      [| apply pack_rows_start; [left; reflexivity | constructor]].
    intros r ([i [problem answer]] & rest & ->). cbn [map entry_text].
    eauto.
  - intros ->. reflexivity.
  - intros Hclean. rewrite <- Hcount. apply render_rows_lines.
    unfold table_rows. apply Forall_map.
    rewrite Forall_forall. intros r Hr. apply Forall_map.
    rewrite Forall_forall. intros e He.
    assert (Hin : In e (concat (pack (columns_for (len problems)) problems)))
      by (apply in_concat; eauto).
    rewrite Hcat in Hin. apply in_app_or in Hin as [Hin | Hin].
    + apply in_map_iff in Hin as ([i [problem answer]] & <- & Hin).
      cbn [entry_text]. rewrite cell_lines.
      apply in_enumerate_from in Hin.
      rewrite Forall_forall in Hclean. specialize (Hclean _ Hin).
      exact Hclean.
    + apply repeat_spec in Hin. subst e. reflexivity.
Qed.

Lemma row_count_witness :
  Forall (fun p => count_char "010"%char (fst p) = 0%nat)
    [("1 + 2", 3); ("9 - 4", 5); ("2 \times 2", 4); ("8 \div 2", 4)]
  /\ len (table_rows false (columns_for 4)
            [("1 + 2", 3); ("9 - 4", 5); ("2 \times 2", 4); ("8 \div 2", 4)])
     = (4 + columns_for 4 - 1) / columns_for 4
  /\ Z.of_nat (count_char "010"%char
                 (render_rows
                    (table_rows false (columns_for 4)
                       [("1 + 2", 3); ("9 - 4", 5); ("2 \times 2", 4);
                        ("8 \div 2", 4)])))
     = 2 * ((4 + columns_for 4 - 1) / columns_for 4).
Proof.
  assert (Hclean :
    Forall (fun p => count_char "010"%char (fst p) = 0%nat)
      [("1 + 2", 3); ("9 - 4", 5); ("2 \times 2", 4); ("8 \div 2", 4)])
    by (repeat constructor).
  destruct (row_count
              [("1 + 2", 3); ("9 - 4", 5); ("2 \times 2", 4); ("8 \div 2", 4)]
              {| operation := "addition"; min_num := 0; max_num := 9;
                 num_questions := 4; student_name := "" |} "01/01/2026" false)
    as (_ & Hcount & _ & _ & Hlines).
  split; [exact Hclean |]. split; [exact Hcount | exact (Hlines Hclean)].
Defined.


(* ===================================================================== *)
(** ** Files and the compiler                                            *)
(* ===================================================================== *)


(** In a name whose stem has no dot, [.replace('.pdf', new)] changes the
    extension and nothing else. *)
Lemma replace_pdf_suffix (new b : string) :
  all_chars not_dot b = true ->
  replace ".pdf" new (b ++ ".pdf") = b ++ new.
Proof.
  unfold replace. induction b as [| c b IH]; intros Hb.
  - cbn. now rewrite append_nil_r.
  - cbn [all_chars] in Hb. apply andb_prop in Hb as [Hc Hb].
    cbn [append replace_skip String.prefix].
    destruct (ascii_dec "." c) as [<- | Hne]; [discriminate Hc |].
    now rewrite IH.
Qed.

Lemma write_file_same (w : fs) (p content : string) :
  write_file w p content p = Some content.
Proof. unfold write_file. now rewrite String.eqb_refl. Qed.

Lemma write_file_other (w : fs) (p content q : string) :
  q <> p -> write_file w p content q = w q.
Proof.
  intros H. unfold write_file. apply String.eqb_neq in H. now rewrite H.
Qed.

Lemma remove_if_exists (w : fs) (p q : string) :
  (if path_exists w p then remove_file w p else w) q =
  if String.eqb q p then None else w q.
Proof.
  unfold path_exists, remove_file.
  destruct (w p) eqn:Hp; [reflexivity |].
  destruct (String.eqb_spec q p) as [-> | _]; [exact Hp | reflexivity].
Qed.

(** The clean-up removes the three auxiliary files and no other. *)
Lemma remove_auxiliary_spec (base : string) (w : fs) (q : string) :
  remove_auxiliary base w q =
  if String.eqb q (base ++ ".aux") || String.eqb q (base ++ ".log")
     || String.eqb q (base ++ ".out")
  then None else w q.
Proof.
  unfold remove_auxiliary. cbn [fold_left].
  rewrite !remove_if_exists.
  destruct (String.eqb q (base ++ ".aux")), (String.eqb q (base ++ ".log")),
    (String.eqb q (base ++ ".out")); reflexivity.
Qed.

Lemma suffix_differs (b s1 s2 : string) : s1 <> s2 -> b ++ s1 <> b ++ s2.
Proof. intros H E. apply H. eapply append_inv_head, E. Qed.

(** X16: without pdflatex, [compile_latex] returns False after saving the
    LaTeX source: for an output name "b.pdf" whose stem has no dot, the
    file "b.tex" holds the source, every other file is as it was, and the
    output ends with the name of the saved file. *)
Theorem compile_latex_missing_compiler (latex_content b : string) (w : fs)
    (out : list string) :
  all_chars not_dot b = true ->
  exists w' out',
    compile_latex None latex_content (b ++ ".pdf") w out = (false, w', out')
    /\ w' (b ++ ".tex") = Some latex_content
    /\ (forall q, q <> b ++ ".tex" -> w' q = w q)
    /\ out' = (out ++ msg_pdflatex_missing ++ [msg_saved (b ++ ".tex")])%list.
Proof.
  intros Hb. unfold compile_latex. cbv zeta.
  rewrite (replace_pdf_suffix ".tex" b Hb).
  eexists. eexists. split; [reflexivity |].
  split; [apply write_file_same |].
  split; [intros q Hq; now apply write_file_other | reflexivity].
Qed.

Lemma compile_latex_missing_compiler_witness :
  all_chars not_dot "sheet" = true
  /\ exists w' out',
       compile_latex None "\documentclass{article}" ("sheet" ++ ".pdf")
         (fun _ => None) [] = (false, w', out')
       /\ w' ("sheet" ++ ".tex") = Some "\documentclass{article}"
       /\ (forall q, q <> "sheet" ++ ".tex" -> w' q = (fun _ => None) q)
       /\ out' = ([] ++ msg_pdflatex_missing
                     ++ [msg_saved ("sheet" ++ ".tex")])%list.
Proof.
  split; [reflexivity |].
  apply (compile_latex_missing_compiler "\documentclass{article}" "sheet").
  reflexivity.
Defined.

(** X17: when [compile_latex] returns True for an output name "b.pdf"
    whose stem has no dot, pdflatex has run twice on "b.tex", the files
    "b.aux", "b.log" and "b.out" are gone, "b.pdf" exists, nothing is
    printed, and every other file, "b.tex" included, is as the second run
    left it. *)
Theorem compile_latex_success (run : process) (latex_content b : string)
    (w w' : fs) (out out' : list string) :
  all_chars not_dot b = true ->
  compile_latex (Some run) latex_content (b ++ ".pdf") w out = (true, w', out') ->
  let w0 := write_file w (b ++ ".tex") latex_content in
  let w2 := fst (run (b ++ ".tex") (fst (run (b ++ ".tex") w0))) in
  w' (b ++ ".aux") = None /\ w' (b ++ ".log") = None /\ w' (b ++ ".out") = None
  /\ path_exists w' (b ++ ".pdf") = true
  /\ w' (b ++ ".tex") = w2 (b ++ ".tex")
  /\ (forall q, q <> b ++ ".aux" -> q <> b ++ ".log" -> q <> b ++ ".out" ->
                w' q = w2 q)
  /\ out' = out.
Proof.
  intros Hb Hrun. cbv zeta.
  unfold compile_latex in Hrun. cbv zeta in Hrun.
  rewrite (replace_pdf_suffix ".tex" b Hb) in Hrun.
  rewrite (replace_pdf_suffix "" b Hb), append_nil_r in Hrun.
  destruct (run (b ++ ".tex") (write_file w (b ++ ".tex") latex_content))
    as [w1 r1].
  cbn [fst]. destruct (run (b ++ ".tex") w1) as [w2 [stdout stderr]].
  cbn [fst]. destruct (path_exists w2 (b ++ ".pdf")) eqn:Hpdf;
    [| discriminate Hrun].
  inversion Hrun; subst.
  assert (Hother : forall q, q <> b ++ ".aux" -> q <> b ++ ".log" ->
                             q <> b ++ ".out" ->
                             remove_auxiliary b w2 q = w2 q).
  { intros q Ha Hl Ho. rewrite remove_auxiliary_spec.
    apply String.eqb_neq in Ha, Hl, Ho. now rewrite Ha, Hl, Ho. }
  repeat split.
  - rewrite remove_auxiliary_spec, String.eqb_refl. reflexivity.
  - rewrite remove_auxiliary_spec, String.eqb_refl, orb_true_r. reflexivity.
  - rewrite remove_auxiliary_spec, String.eqb_refl, orb_true_r. reflexivity.
  - unfold path_exists in *.
    rewrite Hother; [exact Hpdf | | |]; apply suffix_differs; discriminate.
  - apply Hother; apply suffix_differs; discriminate.
  - exact Hother.
Qed.

(** X18: when [compile_latex] returns False although pdflatex is there,
    no "b.pdf" exists after the second run, the files are exactly as that
    run left them, logs included, and the message names "b.tex" and is
    followed by the output and the errors of the second run. *)
Theorem compile_latex_failure (run : process) (latex_content b : string)
    (w w' : fs) (out out' : list string) :
  all_chars not_dot b = true ->
  compile_latex (Some run) latex_content (b ++ ".pdf") w out = (false, w', out') ->
  let w0 := write_file w (b ++ ".tex") latex_content in
  let second := run (b ++ ".tex") (fst (run (b ++ ".tex") w0)) in
  w' = fst second
  /\ path_exists w' (b ++ ".pdf") = false
  /\ out' = (out ++ [msg_not_created (b ++ ".tex");
                     fst (snd second); snd (snd second)])%list.
Proof.
  intros Hb Hrun. cbv zeta.
  unfold compile_latex in Hrun. cbv zeta in Hrun.
  rewrite (replace_pdf_suffix ".tex" b Hb) in Hrun.
  destruct (run (b ++ ".tex") (write_file w (b ++ ".tex") latex_content))
    as [w1 r1].
  cbn [fst]. destruct (run (b ++ ".tex") w1) as [w2 [stdout stderr]].
  cbn [fst snd]. destruct (path_exists w2 (b ++ ".pdf")) eqn:Hpdf;
    [discriminate Hrun |].
  inversion Hrun; subst.
  split; [reflexivity |]. split; [exact Hpdf | reflexivity].
Qed.

Lemma compile_latex_success_witness :
  all_chars not_dot "sheet" = true
  /\ compile_latex (Some example_pdflatex) "source" ("sheet" ++ ".pdf")
       no_files []
     = (true,
        remove_auxiliary "sheet"
          (fst (example_pdflatex "sheet.tex"
                  (fst (example_pdflatex "sheet.tex"
                          (write_file no_files "sheet.tex" "source"))))),
        [])
  /\ remove_auxiliary "sheet"
       (fst (example_pdflatex "sheet.tex"
               (fst (example_pdflatex "sheet.tex"
                       (write_file no_files "sheet.tex" "source")))))
       ("sheet" ++ ".log") = None.
Proof.
  assert (Hb : all_chars not_dot "sheet" = true) by reflexivity.
  assert (Hrun :
    compile_latex (Some example_pdflatex) "source" ("sheet" ++ ".pdf")
      no_files []
    = (true,
       remove_auxiliary "sheet"
         (fst (example_pdflatex "sheet.tex"
                 (fst (example_pdflatex "sheet.tex"
                         (write_file no_files "sheet.tex" "source"))))),
       [])) by reflexivity.
  split; [exact Hb |]. split; [exact Hrun |].
  exact (proj1 (proj2 (compile_latex_success example_pdflatex "source" "sheet"
                         no_files _ [] [] Hb Hrun))).
Defined.

Lemma compile_latex_failure_witness :
  all_chars not_dot "sheet" = true
  /\ compile_latex (Some failing_pdflatex) "source" ("sheet" ++ ".pdf")
       no_files []
     = (false,
        fst (failing_pdflatex "sheet.tex"
               (fst (failing_pdflatex "sheet.tex"
                       (write_file no_files "sheet.tex" "source")))),
        [msg_not_created "sheet.tex"; ""; "! Emergency stop"])
  /\ path_exists
       (fst (failing_pdflatex "sheet.tex"
               (fst (failing_pdflatex "sheet.tex"
                       (write_file no_files "sheet.tex" "source")))))
       ("sheet" ++ ".pdf") = false.
Proof.
  assert (Hb : all_chars not_dot "sheet" = true) by reflexivity.
  assert (Hrun :
    compile_latex (Some failing_pdflatex) "source" ("sheet" ++ ".pdf")
      no_files []
    = (false,
       fst (failing_pdflatex "sheet.tex"
              (fst (failing_pdflatex "sheet.tex"
                      (write_file no_files "sheet.tex" "source")))),
       [msg_not_created "sheet.tex"; ""; "! Emergency stop"])) by reflexivity.
  split; [exact Hb |]. split; [exact Hrun |].
  exact (proj1 (proj2 (compile_latex_failure failing_pdflatex "source" "sheet"
                         no_files _ [] _ Hb Hrun))).
Defined.

(* ===================================================================== *)
(** ** The whole run                                                     *)
(* ===================================================================== *)










(** X21: the worksheet and the answer key of the same problems, parameters
    and date are one text with four holes: the title, twice, the table
    rows, and the instruction footer, which only the worksheet has.  The
    name and date line is written in both documents. *)
Theorem documents_differ_only_in (problems : list Problem) (params : Params)
    (today : string) (show_answers : bool) :
  generate_latex problems params today show_answers =
  head_before_title ++ title_of show_answers
    ++ head_between_titles today ++ title_of show_answers
    ++ head_after_title params (columns_for (len problems))
    ++ render_rows (table_rows show_answers (columns_for (len problems))
                      problems)
    ++ table_end
    ++ (if show_answers then "" else instruction_footer)
    ++ document_end.
Proof.
  rewrite generate_latex_parts.
  unfold document_tail, document_head, title_of, instruction_footer,
    head_before_title, head_between_titles, head_after_title, name_line,
    table_end, document_end.
  cbv zeta.
  destruct show_answers; cbn [negb];
    destruct (String.eqb (student_name params) "");
    rewrite !append_assoc; reflexivity.
Qed.
